(** * honey_flask: a Flask decoy service with a capture pipeline

    Shallow embedding of [honey_flask.py]: the request logger
    ([log_request], [save_event]), the bait views ([index], [admin],
    [admin_login], [api_data], [upload]) and the parts of the Python
    runtime and of werkzeug they rely on ([bytes.decode], [json.dumps],
    [str.replace], [secure_filename], [os.path.join]).

    Python text is a list of code points, bytes are [Byte.byte], and the
    mutable surroundings of the process (events table, log file,
    quarantine directory, application logger) are one [World] record
    threaded through a state-and-exception monad. *)

From Stdlib Require Import ZArith NArith Ascii String Decimal DecimalZ.
From stdpp Require Import base decidable option list gmap strings.

Local Open Scope N_scope.

(** ** Python text and bytes *)

Module Py.

(** A code point of a Python [str]. *)
Abbreviation char := N.

(** A Python [str]: its code points in order, so that [len] is [length]. *)
Abbreviation pystr := (list N).

(** A string literal of the source. *)
Definition lit (s : string) : pystr :=
  N_of_ascii <$> list_ascii_of_string s.

Definition chr (a : ascii) : char := N_of_ascii a.

(** [s[:n]] on text and on bytes. *)
Definition slice_to {A} (n : nat) (s : list A) : list A := take n s.

(** [x or d] where [x] is [None] or a [str]: the empty string is falsy. *)
Definition or_default (x : option pystr) (d : pystr) : pystr :=
  match x with
  | Some (c :: s) => c :: s
  | Some [] | None => d
  end.

(** [f"{x}"] where [x] is [None] or a [str]. *)
Definition format_opt (x : option pystr) : pystr :=
  match x with
  | Some s => s
  | None => lit "None"
  end.

(** *** [str(int)] *)

Fixpoint uint_chars (d : Decimal.uint) : pystr :=
  match d with
  | Nil => []
  | D0 r => 48 :: uint_chars r
  | D1 r => 49 :: uint_chars r
  | D2 r => 50 :: uint_chars r
  | D3 r => 51 :: uint_chars r
  | D4 r => 52 :: uint_chars r
  | D5 r => 53 :: uint_chars r
  | D6 r => 54 :: uint_chars r
  | D7 r => 55 :: uint_chars r
  | D8 r => 56 :: uint_chars r
  | D9 r => 57 :: uint_chars r
  end.

Definition str_int (z : Z) : pystr :=
  match Z.to_int z with
  | Decimal.Pos d => uint_chars d
  | Decimal.Neg d => chr "-" :: uint_chars d
  end.

(** *** [str.replace(old, new)] *)

Fixpoint starts_with (p s : pystr) : bool :=
  match p, s with
  | [], _ => true
  | _ :: _, [] => false
  | a :: p', b :: s' => (a =? b) && starts_with p' s'
  end.

(** Scans left to right; after a match the next [skip] characters belong
    to the occurrence just replaced. *)
Fixpoint replace_from (old new : pystr) (skip : nat) (s : pystr) : pystr :=
  match s with
  | [] => []
  | c :: s' =>
      match skip with
      | S k => replace_from old new k s'
      | O =>
          if starts_with old s
          then new ++ replace_from old new (pred (length old)) s'
          else c :: replace_from old new 0 s'
      end
  end.

(** With an empty [old] Python inserts [new] around every character. *)
Definition replace (old new s : pystr) : pystr :=
  match old with
  | [] => new ++ flat_map (fun c => c :: new) s
  | _ :: _ => replace_from old new 0 s
  end.

(** *** [str.split()], [str.join], [str.strip(chars)] *)

(** Whitespace of [str.split()] among the ASCII code points. *)
Definition is_space (c : char) : bool :=
  ((9 <=? c) && (c <=? 13)) || ((28 <=? c) && (c <=? 32)).

(** [cur] is the word being read, in order. *)
Fixpoint split_from (cur : pystr) (s : pystr) : list pystr :=
  match s with
  | [] => match cur with [] => [] | _ :: _ => [cur] end
  | c :: s' =>
      if is_space c
      then match cur with
           | [] => split_from [] s'
           | _ :: _ => cur :: split_from [] s'
           end
      else split_from (cur ++ [c]) s'
  end.

Definition split (s : pystr) : list pystr := split_from [] s.

Fixpoint join (sep : pystr) (parts : list pystr) : pystr :=
  match parts with
  | [] => []
  | [p] => p
  | p :: rest => p ++ sep ++ join sep rest
  end.

Fixpoint mem (c : char) (cs : pystr) : bool :=
  match cs with
  | [] => false
  | d :: cs' => (c =? d) || mem c cs'
  end.

Fixpoint lstrip (cs s : pystr) : pystr :=
  match s with
  | [] => []
  | c :: s' => if mem c cs then lstrip cs s' else s
  end.

Definition rstrip (cs s : pystr) : pystr := rev (lstrip cs (rev s)).

Definition strip (cs s : pystr) : pystr := rstrip cs (lstrip cs s).

(** *** [bytes.decode('utf-8', 'replace')]

    CPython's decoder: a well-formed sequence yields its code point; an
    invalid start byte, or the longest prefix of a sequence that a wrong
    or missing continuation byte cuts short, yields one U+FFFD, and
    decoding resumes at the offending byte. *)

Definition REPLACEMENT : char := 0xFFFD.

(** A multi-byte sequence under way: continuation bytes still expected,
    bits collected so far, admissible range of the next byte. *)
Record pending := Pending { need : nat; acc : N; lo : N; hi : N }.

Definition start (b : N) : pystr * option pending :=
  if b <=? 0x7F then ([b], None)
  else if (0xC2 <=? b) && (b <=? 0xDF) then
    ([], Some (Pending 1 (N.land b 0x1F) 0x80 0xBF))
  else if (0xE0 <=? b) && (b <=? 0xEF) then
    ([], Some (Pending 2 (N.land b 0x0F)
                 (if b =? 0xE0 then 0xA0 else 0x80)
                 (if b =? 0xED then 0x9F else 0xBF)))
  else if (0xF0 <=? b) && (b <=? 0xF4) then
    ([], Some (Pending 3 (N.land b 0x07)
                 (if b =? 0xF0 then 0x90 else 0x80)
                 (if b =? 0xF4 then 0x8F else 0xBF)))
  else ([REPLACEMENT], None).

Fixpoint decode_from (st : option pending) (bs : list Byte.byte) : pystr :=
  match bs with
  | [] => match st with None => [] | Some _ => [REPLACEMENT] end
  | b :: bs' =>
      let n := Byte.to_N b in
      match st with
      | Some p =>
          if (lo p <=? n) && (n <=? hi p) then
            let acc' := N.lor (N.shiftl (acc p) 6) (N.land n 0x3F) in
            match need p with
            | S (S k) => decode_from (Some (Pending (S k) acc' 0x80 0xBF)) bs'
            | _ => acc' :: decode_from None bs'
            end
          else
            REPLACEMENT :: (fst (start n) ++ decode_from (snd (start n)) bs')
      | None => fst (start n) ++ decode_from (snd (start n)) bs'
      end
  end.

Definition decode_utf8_replace (bs : list Byte.byte) : pystr :=
  decode_from None bs.

(** *** [json.dumps] on a dict of [str] to [str]

    Default settings: [ensure_ascii=True], separators [", "] and [": "];
    a dict keeps its insertion order, so it is an association list. *)

Definition hex_digit (n : N) : char :=
  if n <? 10 then 48 + n else 87 + n.

(** [chr(92) + 'u{0:04x}'.format(n)] *)
Definition u_escape (n : N) : pystr :=
  [92; 117; hex_digit (n / 4096 mod 16); hex_digit (n / 256 mod 16);
   hex_digit (n / 16 mod 16); hex_digit (n mod 16)].

Definition escape_char (c : char) : pystr :=
  if c =? 34 then [92; 34]
  else if c =? 92 then [92; 92]
  else if c =? 10 then [92; 110]
  else if c =? 13 then [92; 114]
  else if c =? 9 then [92; 116]
  else if c =? 8 then [92; 98]
  else if c =? 12 then [92; 102]
  else if (32 <=? c) && (c <=? 126) then [c]
  else if c <? 0x10000 then u_escape c
  else
    let n := c - 0x10000 in
    u_escape (N.lor 0xD800 (N.land (N.shiftr n 10) 0x3FF))
      ++ u_escape (N.lor 0xDC00 (N.land n 0x3FF)).

Definition json_string (s : pystr) : pystr :=
  [34] ++ flat_map escape_char s ++ [34].

Definition json_dumps (d : list (pystr * pystr)) : pystr :=
  lit "{"
    ++ join (lit ", ")
         ((fun kv => json_string kv.1 ++ lit ": " ++ json_string kv.2) <$> d)
    ++ lit "}".

End Py.

Import Py.

(** ** Exceptions, the process surroundings and the effect monad *)

(** An instance of [Exception], given by [str(e)]. *)
Record exn := Exception { exn_text : pystr }.

Inductive Res (A : Type) : Type :=
| Ok (a : A)
| Raise (e : exn).
Arguments Ok {A} a.
Arguments Raise {A} e.

Definition res_bind {A B} (r : Res A) (k : A -> Res B) : Res B :=
  match r with
  | Ok a => k a
  | Raise e => Raise e
  end.

(** The I/O operations of the program that can fail. *)
Inductive Site :=
| DbInsert        (* sqlite3: connect, execute INSERT, commit, close *)
| FallbackWrite   (* save_event: open(LOGFILE, 'a') and write *)
| MakeDirs        (* upload: os.makedirs(QUARANTINE_DIR, exist_ok=True) *)
| FileSave        (* upload: file.save(path) *)
| NoteWrite.      (* upload: open(LOGFILE, 'a') and write *)

(** What the program reads from its surroundings and never changes:
    which operations fail (and how), what a failing write leaves behind,
    and the clock. *)
Record Env := {
  fault : Site -> option exn;
  (* a write that raises may have written a first part of its data:
     [Some n] when the first [n] characters or bytes are there, [None]
     when it raised before writing *)
  left_behind : Site -> option nat;
  utcnow_isoformat : pystr;  (* datetime.now(timezone.utc).isoformat() *)
  time_time : Z              (* int(time.time()) *)
}.

(** A row of table [events] without its [id], which sqlite assigns: the
    seven values bound to the placeholders of the INSERT. *)
Record EventRow := {
  row_ts : pystr;
  row_src_ip : pystr;
  row_xff : pystr;
  row_method : pystr;
  row_path : pystr;
  row_headers : pystr;
  row_body : pystr
}.

Record World := {
  env : Env;
  events : list EventRow;                    (* honeypot_logs.db *)
  logfile : pystr;                           (* honeypot_requests.log *)
  dirs : gset (list N);                      (* directories created *)
  quarantine : gmap (list N) (list Byte.byte);  (* files written, by path *)
  app_log : list pystr                       (* app.logger.error records *)
}.

Definition M (A : Type) : Type := World -> Res A * World.

Definition ret {A} (a : A) : M A := fun w => (Ok a, w).

Definition raise {A} (e : exn) : M A := fun w => (Raise e, w).

Definition bind {A B} (m : M A) (k : A -> M B) : M B :=
  fun w =>
    match m w with
    | (Ok a, w1) => k a w1
    | (Raise e, w1) => (Raise e, w1)
    end.

(** [try: m  except Exception as e: h e]; what [m] did before it raised
    stays done. *)
Definition try_ {A} (m : M A) (h : exn -> M A) : M A :=
  fun w =>
    match m w with
    | (Ok a, w1) => (Ok a, w1)
    | (Raise e, w1) => h e w1
    end.

Definition lift {A} (r : Res A) : M A := fun w => (r, w).

Declare Scope py_scope.
Delimit Scope py_scope with py.
Notation "x <- m ;; k" := (bind m (fun x => k))
  (at level 100, m at next level, right associativity) : py_scope.
Notation "m ;; k" := (bind m (fun _ => k))
  (at level 100, right associativity) : py_scope.
Notation "x <-? r ;; k" := (res_bind r (fun x => k))
  (at level 100, r at next level, right associativity) : py_scope.
Local Open Scope py_scope.

(** *** Primitive operations *)

Definition read_env {A} (f : Env -> A) : M A := fun w => (Ok (f (env w)), w).

Definition guard (s : Site) : M unit :=
  fun w =>
    match fault (env w) s with
    | Some e => (Raise e, w)
    | None => (Ok tt, w)
    end.

Definition set_events (f : list EventRow -> list EventRow) : M unit :=
  fun w => (Ok tt, {| env := env w; events := f (events w);
                      logfile := logfile w; dirs := dirs w;
                      quarantine := quarantine w; app_log := app_log w |}).

Definition set_logfile (f : pystr -> pystr) : M unit :=
  fun w => (Ok tt, {| env := env w; events := events w;
                      logfile := f (logfile w); dirs := dirs w;
                      quarantine := quarantine w; app_log := app_log w |}).

Definition set_dirs (f : gset (list N) -> gset (list N)) : M unit :=
  fun w => (Ok tt, {| env := env w; events := events w;
                      logfile := logfile w; dirs := f (dirs w);
                      quarantine := quarantine w; app_log := app_log w |}).

Definition set_quarantine
    (f : gmap (list N) (list Byte.byte) -> gmap (list N) (list Byte.byte))
  : M unit :=
  fun w => (Ok tt, {| env := env w; events := events w;
                      logfile := logfile w; dirs := dirs w;
                      quarantine := f (quarantine w); app_log := app_log w |}).

Definition set_app_log (f : list pystr -> list pystr) : M unit :=
  fun w => (Ok tt, {| env := env w; events := events w;
                      logfile := logfile w; dirs := dirs w;
                      quarantine := quarantine w; app_log := f (app_log w) |}).

(** [sqlite3.connect(DB, timeout=5)] ... [conn.close()] around one INSERT:
    the row is there once the block has run through, and is not there
    when any step of it raised. *)
Definition sqlite_insert (row : EventRow) : M unit :=
  guard DbInsert ;; set_events (fun rows => rows ++ [row]).

(** [with open(LOGFILE, 'a', encoding='utf8') as f: f.write(text)].
    When it raises, a first part of [text] may be in the file already. *)
Definition append_logfile (s : Site) (text : pystr) : M unit :=
  fun w =>
    match fault (env w) s with
    | None => set_logfile (fun old => old ++ text) w
    | Some e =>
        (Raise e,
         (set_logfile
            (fun old => old ++ take (default 0%nat (left_behind (env w) s)) text)
            w).2)
    end.

(** [os.makedirs(d, exist_ok=True)] *)
Definition os_makedirs (d : pystr) : M unit :=
  guard MakeDirs ;; set_dirs (fun ds => {[ d ]} ∪ ds).

(** [app.logger.error(fmt, e)] with [fmt] ending in [%s]. The handlers of
    the [logging] module deal with their own errors, so the call
    returns. *)
Definition logger_error (prefix : pystr) (e : exn) : M unit :=
  set_app_log (fun records => records ++ [prefix ++ exn_text e]).

(** [os.path.join(a, b)] of [posixpath]. *)
Definition os_path_join (a b : pystr) : pystr :=
  if starts_with (lit "/") b then b
  else
    match last a with
    | None => b
    | Some c => if c =? chr "/" then a ++ b else a ++ lit "/" ++ b
    end.

(** ** The request object *)

(** Anything passed as [headers]: what [headers.get(key, default)] does.
    (The values of the mapping are text.) *)
Record Headers := { hget : pystr -> pystr -> Res pystr }.

(** A plain [dict] from names to values passed as [headers]: its keys
    are looked up as they are. *)
Definition mapping (m : gmap (list N) (list N)) : Headers :=
  {| hget key dflt := Ok (default dflt (m !! key)) |}.

(** [str.upper()], on the ASCII letters. *)
Definition upper (s : pystr) : pystr :=
  (fun c => if (97 <=? c) && (c <=? 122) then c - 32 else c) <$> s.

(** Where the WSGI environ holds a header: under its name in upper case
    with [_] for [-], after [HTTP_] except for the content type and
    length. The server files a header of the request there, and
    werkzeug's [EnvironHeaders] looks a key up there: header names match
    whatever their case. *)
Definition environ_key (name : pystr) : pystr :=
  let key := replace (lit "-") (lit "_") (upper name) in
  if bool_decide (key = lit "CONTENT_TYPE")
     || bool_decide (key = lit "CONTENT_LENGTH")
  then key
  else lit "HTTP_" ++ key.

(** [request.headers]: werkzeug's [EnvironHeaders] over the environ. *)
Definition environ_headers (environ : gmap (list N) (list N)) : Headers :=
  {| hget key dflt := Ok (default dflt (environ !! environ_key key)) |}.

(** Anything passed as [body]. *)
Inductive Value :=
| VBytes (b : list Byte.byte)   (* an instance of bytes *)
| VStr (s : pystr)
| VNone
| VObject (to_str : Res pystr). (* any other object: what str() does on it *)

(** werkzeug's [FileStorage]; it is truthy when it has a file name. *)
Record FileStorage := {
  filename : option pystr;
  stream : list Byte.byte
}.

Definition file_bool (f : FileStorage) : bool :=
  match filename f with
  | Some (_ :: _) => true
  | Some [] | None => false
  end.

Record Response := { body : pystr; status : Z }.

(** What reading [request.form] or [request.files] does. Either parses
    the body: the fields are there; or raises an [HTTPException]
    ([RequestEntityTooLarge] for a body above [MAX_CONTENT_LENGTH]). No
    [try] of the views encloses these reads, so the exception leaves the
    view and Flask answers with the response it carries. *)
Inductive Parsed (A : Type) : Type :=
| Fields (a : A)
| HttpError (r : Response).
Arguments Fields {A} a.
Arguments HttpError {A} r.

(** Flask's [request]: each attribute the program reads is given by what
    reading it does, so that missing and malformed attributes and bodies
    that cannot be parsed are covered. *)
Record Request := {
  remote_addr : Res (option pystr);
  headers : Res Headers;
  method : Res pystr;
  path : Res pystr;
  get_data : Res (list Byte.byte);
  form_read : Parsed (gmap (list N) (list N));
  files_read : Parsed (gmap (list N) FileStorage)
}.

(** The fields of a form that was parsed (none when it was not). *)
Definition form (request : Request) : gmap (list N) (list N) :=
  match form_read request with
  | Fields fields => fields
  | HttpError _ => ∅
  end.

(** The uploads of a body that was parsed (none when it was not). *)
Definition files (request : Request) : gmap (list N) FileStorage :=
  match files_read request with
  | Fields uploads => uploads
  | HttpError _ => ∅
  end.

(** werkzeug's page for [RequestEntityTooLarge]. *)
Definition REQUEST_ENTITY_TOO_LARGE : Response :=
  {| body :=
       lit "<!doctype html>" ++ [10] ++ lit "<html lang=en>" ++ [10]
         ++ lit "<title>413 Request Entity Too Large</title>" ++ [10]
         ++ lit "<h1>Request Entity Too Large</h1>" ++ [10]
         ++ lit "<p>The data value transmitted exceeds the capacity limit.</p>"
         ++ [10];
     status := 413 |}.

(** ** Config *)

Definition DB : pystr := lit "honeypot_logs.db".
Definition LOGFILE : pystr := lit "honeypot_requests.log".
Definition QUARANTINE_DIR : pystr := lit "quarantine".
Definition UPLOAD_MAX_BYTES : Z := 10 * 1024 * 1024.

(** ** [save_event] *)

(** Lines 40-48: the four headers kept, or [{}] when a lookup raises. *)
Definition header_summary (headers : Headers) : list (pystr * pystr) :=
  match
    (ua <-? hget headers (lit "User-Agent") [] ;;
     xff <-? hget headers (lit "X-Forwarded-For") [] ;;
     ct <-? hget headers (lit "Content-Type") [] ;;
     ac <-? hget headers (lit "Accept") [] ;;
     Ok [(lit "User-Agent", ua); (lit "X-Forwarded-For", xff);
         (lit "Content-Type", ct); (lit "Accept", ac)])
  with
  | Ok headers_dict => headers_dict
  | Raise _ => []
  end.

(** Lines 51-57: the body as text, cut to 2000 characters. *)
Definition body_excerpt (body : Value) : pystr :=
  match
    match body with
    | VBytes b => Ok (slice_to 2000 (decode_utf8_replace b))
    | VStr s => Ok (slice_to 2000 s)
    | VNone => Ok (slice_to 2000 (lit "None"))
    | VObject to_str => s <-? to_str ;; Ok (slice_to 2000 s)
    end
  with
  | Ok body_text => body_text
  | Raise _ => []
  end.

(** The text written to the log file at line 71. *)
Definition log_line (ts src_ip xff method path : pystr)
    (headers_dict : list (pystr * pystr)) (body_text : pystr) : pystr :=
  ts ++ lit " | " ++ src_ip ++ lit " | " ++ xff ++ lit " | "
     ++ method ++ lit " " ++ path
     ++ lit " | headers:" ++ json_dumps headers_dict
     ++ lit " | body:" ++ body_text ++ [10].

Definition save_event (src_ip xff method path : pystr)
    (headers : Headers) (body : Value) : M unit :=
  now <- read_env utcnow_isoformat ;;
  let ts := replace (lit "+00:00") (lit "Z") now in
  let headers_dict := header_summary headers in
  let body_text := body_excerpt body in
  try_
    (sqlite_insert
       {| row_ts := ts; row_src_ip := src_ip; row_xff := xff;
          row_method := method; row_path := path;
          row_headers := json_dumps headers_dict; row_body := body_text |})
    (fun e =>
       try_
         (append_logfile FallbackWrite
            (log_line ts src_ip xff method path headers_dict body_text))
         (fun _ => ret tt) ;;
       try_ (logger_error (lit "Logging failure: ") e) (fun _ => ret tt)).

(** ** [log_request], the [before_request] hook *)

Definition log_request (request : Request) : M unit :=
  try_
    (addr <- lift (remote_addr request) ;;
     let src_ip := or_default addr (lit "unknown") in
     hs <- lift (headers request) ;;
     xff <- lift (hget hs (lit "X-Forwarded-For") []) ;;
     method <- lift (method request) ;;
     path <- lift (path request) ;;
     headers <- lift (headers request) ;;
     data <- lift (get_data request) ;;
     let body := slice_to 2000 data in
     save_event src_ip xff method path headers (VBytes body))
    (fun e =>
       try_ (logger_error (lit "Logging failure: ") e) (fun _ => ret tt)).

(** ** Templates *)

(** The source writes its HTML attributes with double quotes; the text
    below spells them with single quotes, which [html] turns back. *)
Definition html (s : pystr) : pystr :=
  (fun c => if c =? 39 then 34 else c) <$> s.

Definition ADMIN_PAGE : pystr :=
  join [10]
    [ [];
      lit "<!doctype html>";
      lit "<title>Admin Panel</title>";
      lit "<h2>Admin Login</h2>";
      html (lit "<form method='post' action='/admin/login'>");
      html (lit "  <input name='username' placeholder='username'/><br/>");
      html (lit "  <input name='password' placeholder='password' type='password'/><br/>");
      html (lit "  <button type='submit'>Login</button>");
      lit "</form>";
      [] ].

Definition GENERIC_PAGE : pystr :=
  lit "<h1>Welcome</h1><p>This server is under maintenance.</p>".

(** ** Endpoints *)

Definition index (request : Request) : M Response :=
  ret {| body := GENERIC_PAGE; status := 200 |}.

Definition admin (request : Request) : M Response :=
  ret {| body := ADMIN_PAGE; status := 200 |}.

Definition admin_login (request : Request) : M Response :=
  m <- lift (method request) ;;
  if decide (m = lit "GET") then ret {| body := ADMIN_PAGE; status := 200 |}
  else
    match form_read request with
    | HttpError r => ret r
    | Fields fields =>
        let username := fields !! lit "username" in
        let password := fields !! lit "password" in
        ret {| body :=
                 lit "<p>Login failed for " ++ format_opt username ++ lit "</p>";
               status := 401 |}
    end.

Definition api_data (request : Request) : M Response :=
  ret {| body := json_dumps [(lit "error", lit "not_found")]; status := 404 |}.

Section Quarantine.

(** The compatibility decomposition of a code point outside ASCII, from
    the Unicode character database. *)
Variable compat_decomposition : char -> pystr.

(** [unicodedata.normalize("NFKD", s)], up to the order of combining
    marks, which are outside ASCII and are dropped by the next step of
    [secure_filename]. *)
Definition normalize_nfkd (s : pystr) : pystr :=
  flat_map (fun c => if c <? 128 then [c] else compat_decomposition c) s.

(** [s.encode("ascii", "ignore").decode("ascii")] *)
Definition encode_ascii_ignore (s : pystr) : pystr :=
  List.filter (fun c => c <? 128) s.

(** The complement of [_filename_ascii_strip_re], [[^A-Za-z0-9_.-]]. *)
Definition filename_char (c : char) : bool :=
  ((65 <=? c) && (c <=? 90)) || ((97 <=? c) && (c <=? 122))
  || ((48 <=? c) && (c <=? 57))
  || (c =? chr "_") || (c =? chr ".") || (c =? chr "-").

(** [os.sep] and [os.path.altsep] of a POSIX host. *)
Definition os_sep : option pystr := Some (lit "/").
Definition os_path_altsep : option pystr := None.

(** werkzeug's [secure_filename] where [os.name] is not ["nt"]. *)
Definition secure_filename (filename : pystr) : pystr :=
  let filename := normalize_nfkd filename in
  let filename := encode_ascii_ignore filename in
  let filename :=
    fold_left
      (fun name sep =>
         match sep with
         | Some (c :: s) => replace (c :: s) (lit " ") name
         | Some [] | None => name
         end)
      [os_sep; os_path_altsep] filename in
  strip (lit "._")
    (List.filter filename_char (join (lit "_") (split filename))).

(** [file.save(path)] opens [path] for writing and copies the stream:
    the file is there when the call returns, and replaces what was at
    [path]. When it raises after the file was opened, a file with a first
    part of the content stays at [path]. *)
Definition file_save (file : FileStorage) (path : pystr) : M unit :=
  fun w =>
    match fault (env w) FileSave with
    | None => set_quarantine (fun q => <[ path := stream file ]> q) w
    | Some e =>
        match left_behind (env w) FileSave with
        | None => (Raise e, w)
        | Some n =>
            (Raise e,
             (set_quarantine (fun q => <[ path := take n (stream file) ]> q)
                w).2)
        end
    end.

Definition upload (request : Request) : M Response :=
  match files_read request with
  | HttpError r => ret r
  | Fields uploads =>
  match uploads !! lit "file" with
  | Some file =>
      if file_bool file then
        let fname := secure_filename (or_default (filename file) (lit "upload")) in
        os_makedirs QUARANTINE_DIR ;;
        t <- read_env time_time ;;
        let path := os_path_join QUARANTINE_DIR (str_int t ++ lit "_" ++ fname) in
        try_
          (file_save file path ;;
           now <- read_env utcnow_isoformat ;;
           append_logfile NoteWrite
             (now ++ lit " | uploaded_file_saved: " ++ path ++ [10]) ;;
           ret {| body := lit "OK"; status := 200 |})
          (fun e =>
             logger_error (lit "Failed to save upload: ") e ;;
             ret {| body := lit "Failed"; status := 500 |})
      else ret {| body := lit "OK"; status := 200 |}
  | None => ret {| body := lit "OK"; status := 200 |}
  end
  end.

(** ** The application *)

Inductive Endpoint := Index | Admin | AdminLogin | ApiData | Upload.

Definition view (ep : Endpoint) : Request -> M Response :=
  match ep with
  | Index => index
  | Admin => admin
  | AdminLogin => admin_login
  | ApiData => api_data
  | Upload => upload
  end.

(** Flask answers a view that raised with the page of
    [InternalServerError]. *)
Definition INTERNAL_SERVER_ERROR : Response :=
  {| body :=
       join [10]
         [ lit "<!doctype html>";
           lit "<html lang=en>";
           lit "<title>500 Internal Server Error</title>";
           lit "<h1>Internal Server Error</h1>";
           lit "<p>The server encountered an internal error and was unable to complete your request. Either the server is overloaded or there is an error in the application.</p>";
           [] ];
     status := 500 |}.

(** [dispatch_request] for the rule that matched, made into a response. *)
Definition dispatch_request (ep : Endpoint) (request : Request)
  : World -> Response * World :=
  fun w =>
    match view ep request w with
    | (Ok rv, w1) => (rv, w1)
    | (Raise _, w1) => (INTERNAL_SERVER_ERROR, w1)
    end.

(** [full_dispatch_request]: the [before_request] hook, then the view.
    The hook has no [return], so its value never replaces the view's. *)
Definition full_dispatch_request (ep : Endpoint) (request : Request)
  : World -> Response * World :=
  fun w =>
    match log_request request w with
    | (Ok _, w1) => dispatch_request ep request w1
    | (Raise _, w1) => (INTERNAL_SERVER_ERROR, w1)
    end.

End Quarantine.

(** ** Properties of computations *)

(** [m] returns normally from every state. *)
Definition returns {A} (m : M A) : Prop :=
  ∀ w, ∃ a w1, m w = (Ok a, w1).

(** [m] leaves the surroundings' faults and clock alone, and whether and
    what it returns or raises depends on nothing else of the state. *)
Definition stable {A} (m : M A) : Prop :=
  (∀ w, env (m w).2 = env w)
  ∧ (∀ w w', env w = env w' → (m w).1 = (m w').1).

(** The characters of [str(int)]. *)
Definition digit_or_minus (c : N) : Prop := c = 45 ∨ (48 ≤ c ∧ c ≤ 57).

(** ** Sample surroundings and requests *)

#[global] Instance Site_eq_dec : EqDecision Site.
Proof. solve_decision. Defined.

Definition io_error : exn := Exception (lit "[Errno 28] No space left on device").

Definition fail_at (sites : list Site) : Site -> option exn :=
  fun s => if bool_decide (s ∈ sites) then Some io_error else None.

Definition sample_env (sites : list Site) : Env :=
  {| fault := fail_at sites;
     left_behind := fun _ => None;
     utcnow_isoformat := lit "2024-05-01T12:00:00.250000+00:00";
     time_time := 1714564800 |}.

Definition sample_world (sites : list Site) : World :=
  {| env := sample_env sites; events := []; logfile := []; dirs := ∅;
     quarantine := ∅; app_log := [] |}.

(** Surroundings in which the writes named fail after [n] characters or
    bytes. *)
Definition sample_world_cut (sites : list Site) (n : nat) : World :=
  {| env :=
       {| fault := fail_at sites;
          left_behind := fun _ => Some n;
          utcnow_isoformat := lit "2024-05-01T12:00:00.250000+00:00";
          time_time := 1714564800 |};
     events := []; logfile := []; dirs := ∅; quarantine := ∅; app_log := [] |}.

(** A few true entries of the decomposition table; other code points are
    left as they are. *)
Definition sample_decomposition (c : char) : pystr :=
  if c =? 0xE4 then [0x61; 0x308]
  else if c =? 0xE9 then [0x65; 0x301]
  else if c =? 0xFC then [0x75; 0x308]
  else if c =? 0xFF0F then [0x2F]
  else [c].

Definition sample_request (url : pystr) (fields : gmap (list N) (list N))
    (uploads : gmap (list N) FileStorage) : Request :=
  {| remote_addr := Ok (Some (lit "203.0.113.7"));
     headers := Ok (environ_headers {[ lit "HTTP_USER_AGENT" := lit "curl/8.5.0" ]});
     method := Ok (lit "POST");
     path := Ok url;
     get_data := Ok [Byte.x68; Byte.x69];
     form_read := Fields fields;
     files_read := Fields uploads |}.

Definition with_form (fields : gmap (list N) (list N)) (r : Request) : Request :=
  {| remote_addr := remote_addr r; headers := headers r; method := method r;
     path := path r; get_data := get_data r; form_read := Fields fields;
     files_read := files_read r |}.

(** [headers=None]: there is no [get] to call. *)
Definition none_headers : Headers :=
  {| hget _ _ :=
       Raise (Exception (lit "'NoneType' object has no attribute 'get'")) |}.

Definition sample_upload (name : pystr) : Request :=
  sample_request (lit "/upload") ∅
    {[ lit "file" := {| filename := Some name; stream := [Byte.x68; Byte.x69] |} ]}.

Definition sample_login : Request :=
  sample_request (lit "/admin/login")
    {[ lit "username" := lit "admin"; lit "password" := lit "x" ]} ∅.

(** ** States that only grow *)

(** [w'] has all of [w]: rows, log text and logger records of [w] come
    first in [w'], and the directories and quarantined paths of [w] are
    still there. *)
Definition extends (w w' : World) : Prop :=
  events w `prefix_of` events w'
  ∧ logfile w `prefix_of` logfile w'
  ∧ app_log w `prefix_of` app_log w'
  ∧ dirs w ⊆ dirs w'
  ∧ dom (quarantine w) ⊆ dom (quarantine w').

Definition growing {A} (m : M A) : Prop := ∀ w, extends w (m w).2.

(** The four header names [save_event] looks up. *)
Definition KEPT_HEADERS : list pystr :=
  [lit "User-Agent"; lit "X-Forwarded-For"; lit "Content-Type"; lit "Accept"].

(** Where the environ holds them. *)
Definition KEPT_ENVIRON : list pystr := environ_key <$> KEPT_HEADERS.

Definition is_digit (c : N) : Prop := 48 ≤ c ∧ c ≤ 57.

Definition printable (c : N) : Prop := 32 ≤ c ∧ c ≤ 126.

(** A request whose body cannot be read. *)
Definition sample_unreadable : Request :=
  {| remote_addr := Ok None;
     headers := Ok (environ_headers ∅);
     method := Ok (lit "GET");
     path := Ok (lit "/");
     get_data := Raise (Exception (lit "413 Request Entity Too Large"));
     form_read := Fields ∅;
     files_read := Fields ∅ |}.

(** A request without a peer address. *)
Definition sample_anonymous : Request :=
  {| remote_addr := Ok None;
     headers :=
       Ok (environ_headers {[ lit "HTTP_X_FORWARDED_FOR" := lit "198.51.100.9";
                              lit "HTTP_COOKIE" := lit "sid=1" ]});
     method := Ok (lit "GET");
     path := Ok (lit "/");
     get_data := Ok [];
     form_read := Fields ∅;
     files_read := Fields ∅ |}.

(** A POST whose body is above [MAX_CONTENT_LENGTH]: nothing of the body
    can be read. *)
Definition sample_oversize (url : pystr) : Request :=
  {| remote_addr := Ok (Some (lit "203.0.113.7"));
     headers := Ok (environ_headers {[ lit "CONTENT_LENGTH" := lit "11534336" ]});
     method := Ok (lit "POST");
     path := Ok url;
     get_data := Raise (Exception (lit "413 Request Entity Too Large"));
     form_read := HttpError REQUEST_ENTITY_TOO_LARGE;
     files_read := HttpError REQUEST_ENTITY_TOO_LARGE |}.

Definition sample_file (name : option pystr) (content : list Byte.byte)
  : Request :=
  sample_request (lit "/upload") ∅
    {[ lit "file" := {| filename := name; stream := content |} ]}.

#[global] Instance Endpoint_eq_dec : EqDecision Endpoint.
Proof. solve_decision. Defined.

(** ** UTF-8 *)

Definition byte_of (n : N) : Byte.byte := default Byte.x00 (Byte.of_N n).

(** The UTF-8 form of a code point, of one to four bytes (RFC 3629), as
    [str.encode('utf-8')] gives it. *)
Definition utf8_encode_char (c : N) : list Byte.byte :=
  byte_of <$>
    (if c <? 0x80 then [c]
     else if c <? 0x800 then [0xC0 + c / 64; 0x80 + c mod 64]
     else if c <? 0x10000 then
       [0xE0 + c / 4096; 0x80 + (c / 64) mod 64; 0x80 + c mod 64]
     else
       [0xF0 + c / 262144; 0x80 + (c / 4096) mod 64;
        0x80 + (c / 64) mod 64; 0x80 + c mod 64]).

Definition utf8_encode (s : pystr) : list Byte.byte :=
  flat_map utf8_encode_char s.

(** The code points that have a UTF-8 form: all but the surrogates, up
    to U+10FFFF. *)
Definition scalar (c : N) : Prop :=
  c < 0xD800 ∨ (0xE000 ≤ c ∧ c < 0x110000).

(** The bytes that begin no UTF-8 form: continuation bytes, [C0], [C1]
    and [F5] to [FF]. *)
Definition invalid_start (b : Byte.byte) : Prop :=
  (0x80 ≤ Byte.to_N b ∧ Byte.to_N b ≤ 0xC1) ∨ 0xF5 ≤ Byte.to_N b.

(** * Facts *)

(** ** The runtime model on known inputs *)

Example str_int_examples :
  str_int 1714564800 = lit "1714564800" ∧ str_int 0 = lit "0"
  ∧ str_int (-7) = lit "-7".
Proof. by vm_compute. Qed.

Example replace_utc_offset :
  replace (lit "+00:00") (lit "Z") (lit "2024-05-01T12:00:00.250000+00:00")
  = lit "2024-05-01T12:00:00.250000Z".
Proof. by vm_compute. Qed.

(** [b'A\xff'], a euro sign, [b'\xe2(\xa1'], an encoded surrogate, a
    sequence cut short by the end. *)
Example decode_utf8_replace_examples :
  decode_utf8_replace [Byte.x41; Byte.xff] = [0x41; 0xFFFD]
  ∧ decode_utf8_replace [Byte.xe2; Byte.x82; Byte.xac] = [0x20AC]
  ∧ decode_utf8_replace [Byte.xe2; Byte.x28; Byte.xa1] = [0xFFFD; 0x28; 0xFFFD]
  ∧ decode_utf8_replace [Byte.xed; Byte.xa0; Byte.x80] = [0xFFFD; 0xFFFD; 0xFFFD]
  ∧ decode_utf8_replace [Byte.xf0; Byte.x9f; Byte.x98; Byte.x80] = [0x1F600]
  ∧ decode_utf8_replace [Byte.x68; Byte.xf0; Byte.x9f; Byte.x98] = [0x68; 0xFFFD].
Proof. by vm_compute. Qed.

Example json_dumps_examples :
  json_dumps [] = lit "{}"
  ∧ json_dumps [(lit "error", lit "not_found")]
    = html (lit "{'error': 'not_found'}")
  ∧ json_dumps [(lit "Accept", [0x22; 0xE9; 0x0A])]
    = html (lit "{'Accept': '\'\u00e9\n'}").
Proof. by vm_compute. Qed.

(** The examples of werkzeug's documentation. *)
Example secure_filename_examples :
  secure_filename sample_decomposition (lit "My cool movie.mov")
  = lit "My_cool_movie.mov"
  ∧ secure_filename sample_decomposition (lit "../../../etc/passwd")
    = lit "etc_passwd"
  ∧ secure_filename sample_decomposition
      (lit "i contain cool " ++ [0xFC] ++ lit "ml" ++ [0xE4] ++ lit "uts.txt")
    = lit "i_contain_cool_umlauts.txt".
Proof. by vm_compute. Qed.

(** ** The effect monad *)

Section MonadFacts.
Context {A B : Type}.

Lemma returns_ret (a : A) : returns (ret a).
Proof. intros w. by exists a, w. Qed.

Lemma returns_bind (m : M A) (k : A -> M B) :
  returns m → (∀ a, returns (k a)) → returns (bind m k).
Proof.
  intros Hm Hk w. unfold bind.
  destruct (Hm w) as (a & w1 & ->). apply Hk.
Qed.

(** A [try] whose handler returns cannot raise, whatever its body does. *)
Lemma returns_try (m : M A) (h : exn -> M A) :
  (∀ e, returns (h e)) → returns (try_ m h).
Proof.
  intros Hh w. unfold try_.
  destruct (m w) as [[a|e] w1]; [by exists a, w1 | apply Hh].
Qed.

Lemma stable_ret (a : A) : stable (ret a).
Proof. by split. Qed.

Lemma stable_raise (e : exn) : stable (@raise A e).
Proof. by split. Qed.

Lemma stable_lift (r : Res A) : stable (lift r).
Proof. by split. Qed.

Lemma stable_read_env (f : Env -> A) : stable (read_env f).
Proof. split; [done|]. intros w w' E. unfold read_env; simpl. by rewrite E. Qed.

Lemma stable_bind (m : M A) (k : A -> M B) :
  stable m → (∀ a, stable (k a)) → stable (bind m k).
Proof.
  intros [Hm1 Hm2] Hk. split.
  - intros w. unfold bind. specialize (Hm1 w).
    destruct (m w) as [[a|e] w1]; simpl in *; [|done].
    destruct (Hk a) as [Hk1 _]. by rewrite Hk1.
  - intros w w' E. unfold bind.
    pose proof (Hm2 w w' E) as R.
    pose proof (Hm1 w) as E1. pose proof (Hm1 w') as E2.
    destruct (m w) as [r w1], (m w') as [r' w1']; simpl in *. subst r'.
    destruct r as [a|e]; [|done].
    destruct (Hk a) as [_ Hk2]. apply Hk2. congruence.
Qed.

Lemma stable_try (m : M A) (h : exn -> M A) :
  stable m → (∀ e, stable (h e)) → stable (try_ m h).
Proof.
  intros [Hm1 Hm2] Hh. split.
  - intros w. unfold try_. specialize (Hm1 w).
    destruct (m w) as [[a|e] w1]; simpl in *; [done|].
    destruct (Hh e) as [Hh1 _]. by rewrite Hh1.
  - intros w w' E. unfold try_.
    pose proof (Hm2 w w' E) as R.
    pose proof (Hm1 w) as E1. pose proof (Hm1 w') as E2.
    destruct (m w) as [r w1], (m w') as [r' w1']; simpl in *. subst r'.
    destruct r as [a|e]; [done|].
    destruct (Hh e) as [_ Hh2]. apply Hh2. congruence.
Qed.
End MonadFacts.

Lemma stable_guard (s : Site) : stable (guard s).
Proof.
  split; intros w; unfold guard.
  - by destruct (fault (env w) s).
  - intros w' ->. by destruct (fault (env w') s).
Qed.

Lemma stable_set_events f : stable (set_events f).
Proof. by split. Qed.

Lemma stable_set_logfile f : stable (set_logfile f).
Proof. by split. Qed.

Lemma stable_set_dirs f : stable (set_dirs f).
Proof. by split. Qed.

Lemma stable_set_quarantine f : stable (set_quarantine f).
Proof. by split. Qed.

Lemma stable_set_app_log f : stable (set_app_log f).
Proof. by split. Qed.

Lemma stable_logger_error prefix e : stable (logger_error prefix e).
Proof. apply stable_set_app_log. Qed.

Lemma stable_sqlite_insert row : stable (sqlite_insert row).
Proof.
  apply stable_bind; [apply stable_guard | intros; apply stable_set_events].
Qed.

Lemma stable_append_logfile s text : stable (append_logfile s text).
Proof.
  split; intros w; unfold append_logfile.
  - by destruct (fault (env w) s).
  - intros w' ->. by destruct (fault (env w') s).
Qed.

Lemma stable_os_makedirs d : stable (os_makedirs d).
Proof.
  apply stable_bind; [apply stable_guard | intros; apply stable_set_dirs].
Qed.

Lemma stable_file_save file path : stable (file_save file path).
Proof.
  split; intros w; unfold file_save.
  - by destruct (fault (env w) FileSave), (left_behind (env w) FileSave).
  - intros w' ->.
    by destruct (fault (env w') FileSave), (left_behind (env w') FileSave).
Qed.

Create HintDb py discriminated.
#[global] Hint Resolve stable_ret stable_raise stable_lift stable_read_env
  stable_logger_error stable_sqlite_insert stable_append_logfile
  stable_os_makedirs stable_file_save : py.

(** Goes through a program along its binds, handlers and branches. *)
Ltac stable_tac :=
  repeat first
    [ progress intros
    | solve [auto with py]
    | apply stable_bind
    | apply stable_try
    | match goal with |- stable (if ?b then _ else _) => destruct b end
    | match goal with |- stable (match ?x with _ => _ end) => destruct x end ].

(** ** The capture pipeline *)

Lemma stable_save_event src_ip xff method path headers body :
  stable (save_event src_ip xff method path headers body).
Proof.
  unfold save_event. stable_tac.
Qed.

#[global] Hint Resolve stable_save_event : py.


Lemma returns_log_request request : returns (log_request request).
Proof.
  unfold log_request. apply returns_try. intros e.
  apply returns_try. intros _. apply returns_ret.
Qed.



(** ** [save_event] *)

(** What [save_event] does, by the faults of the two sinks. *)
Lemma save_event_run src_ip xff method path headers body w :
  let ts := replace (lit "+00:00") (lit "Z") (utcnow_isoformat (env w)) in
  let row :=
    {| row_ts := ts; row_src_ip := src_ip; row_xff := xff;
       row_method := method; row_path := path;
       row_headers := json_dumps (header_summary headers);
       row_body := body_excerpt body |} in
  let line :=
    log_line ts src_ip xff method path (header_summary headers)
      (body_excerpt body) in
  save_event src_ip xff method path headers body w =
    (Ok tt,
     match fault (env w) DbInsert with
     | None =>
         {| env := env w; events := events w ++ [row]; logfile := logfile w;
            dirs := dirs w; quarantine := quarantine w; app_log := app_log w |}
     | Some e =>
         {| env := env w; events := events w;
            logfile :=
              match fault (env w) FallbackWrite with
              | None => logfile w ++ line
              | Some _ =>
                  logfile w
                    ++ take (default 0%nat (left_behind (env w) FallbackWrite))
                         line
              end;
            dirs := dirs w; quarantine := quarantine w;
            app_log := app_log w ++ [lit "Logging failure: " ++ exn_text e] |}
     end).
Proof.
  unfold save_event, sqlite_insert, append_logfile, logger_error, bind, try_,
    read_env, guard, set_events, set_logfile, set_app_log, ret;
    cbn [env events logfile dirs quarantine app_log fst snd].
  destruct (fault (env w) DbInsert) as [e|];
    cbn [env events logfile dirs quarantine app_log fst snd]; [|done].
  by destruct (fault (env w) FallbackWrite).
Qed.

(** A request whose attributes can all be read is handed to
    [save_event]. *)
Lemma log_request_run request addr hs xff m p data w :
  remote_addr request = Ok addr →
  headers request = Ok hs →
  hget hs (lit "X-Forwarded-For") [] = Ok xff →
  method request = Ok m →
  path request = Ok p →
  get_data request = Ok data →
  log_request request w =
    save_event (or_default addr (lit "unknown")) xff m p hs
      (VBytes (slice_to 2000 data)) w.
Proof.
  intros Ha Hh Hx Hm Hp Hd.
  unfold log_request, try_, bind, lift. rewrite Ha, Hh, Hx, Hm, Hp, Hd.
  by rewrite save_event_run.
Qed.



(** ** The header summary *)

(** C3, as the code has it. When the four lookups return, the summary
    has the four keys User-Agent, X-Forwarded-For, Content-Type and
    Accept, in this order, each with what its lookup returned; for a
    mapping that is the header's value when present and the empty string
    when absent. When a lookup raises, the summary is the empty dict. *)
Theorem header_summary_four_keys_or_empty :
  ∀ headers : Headers,
    match hget headers (lit "User-Agent") [],
          hget headers (lit "X-Forwarded-For") [],
          hget headers (lit "Content-Type") [],
          hget headers (lit "Accept") [] with
    | Ok ua, Ok xff, Ok ct, Ok ac =>
        header_summary headers =
          [(lit "User-Agent", ua); (lit "X-Forwarded-For", xff);
           (lit "Content-Type", ct); (lit "Accept", ac)]
    | _, _, _, _ => header_summary headers = []
    end
    ∧ ∀ m : gmap (list N) (list N),
        header_summary (mapping m) =
          [(lit "User-Agent", default [] (m !! lit "User-Agent"));
           (lit "X-Forwarded-For", default [] (m !! lit "X-Forwarded-For"));
           (lit "Content-Type", default [] (m !! lit "Content-Type"));
           (lit "Accept", default [] (m !! lit "Accept"))].
Proof.
  intros headers. split; [|done].
  unfold header_summary, res_bind.
  destruct (hget headers (lit "User-Agent") []); [|done].
  destruct (hget headers (lit "X-Forwarded-For") []); [|done].
  destruct (hget headers (lit "Content-Type") []); [|done].
  by destruct (hget headers (lit "Accept") []).
Qed.

(** C3 as stated fails: for a [headers] without a working [get] the
    summary has no key at all. *)
Lemma header_summary_of_malformed_is_empty :
  header_summary none_headers = []
  ∧ (header_summary none_headers).*1 ≠
      [lit "User-Agent"; lit "X-Forwarded-For"; lit "Content-Type"; lit "Accept"].
Proof. by split. Qed.

(** ** The body excerpt *)

Lemma start_length n :
  (length (start n).1 + match (start n).2 with Some _ => 1 | None => 0 end
   = 1)%nat.
Proof.
  unfold start.
  repeat match goal with |- context [if ?b then _ else _] =>
    lazymatch b with
    | (_ =? _) => fail
    | _ => destruct b; simpl; try done
    end
  end.
Qed.

(** Every character the decoder gives stands for at least one byte. *)
Lemma decode_from_length st bs :
  (length (decode_from st bs)
   ≤ length bs + match st with Some _ => 1 | None => 0 end)%nat.
Proof.
  revert st. induction bs as [|b bs IH]; intros st.
  - destruct st; simpl; lia.
  - simpl. pose proof (start_length (Byte.to_N b)) as Hs.
    destruct st as [p|].
    + destruct ((lo p <=? Byte.to_N b) && (Byte.to_N b <=? hi p)).
      * destruct (need p) as [|[|k]]; simpl.
        -- specialize (IH None). simpl in IH. lia.
        -- specialize (IH None). simpl in IH. lia.
        -- specialize (IH (Some (Pending (S k)
             (N.lor (N.shiftl (acc p) 6) (N.land (Byte.to_N b) 63)) 128 191))).
           simpl in IH. lia.
      * simpl. rewrite length_app.
        specialize (IH (start (Byte.to_N b)).2). lia.
    + rewrite length_app. specialize (IH (start (Byte.to_N b)).2). lia.
Qed.

Lemma decode_utf8_replace_length bs :
  (length (decode_utf8_replace bs) ≤ length bs)%nat.
Proof.
  unfold decode_utf8_replace.
  pose proof (decode_from_length None bs). simpl in *. lia.
Qed.

(** The body [log_request] passes on is at most 2000 bytes, so that
    [save_event] keeps all of its text. *)
Lemma body_excerpt_of_request_data (data : list Byte.byte) :
  body_excerpt (VBytes (slice_to 2000 data))
  = decode_utf8_replace (slice_to 2000 data).
Proof.
  unfold body_excerpt, slice_to. apply take_ge.
  etrans; [apply decode_utf8_replace_length|].
  rewrite length_take. lia.
Qed.

Lemma slice_to_length {A} (n : nat) (s : list A) :
  (length (slice_to n s) ≤ n)%nat.
Proof. unfold slice_to. rewrite length_take. lia. Qed.

(** ** The decoder against UTF-8 *)

Ltac divlia := zify; Z.to_euclidean_division_equations; lia.

Lemma to_N_byte_of n : n < 256 → Byte.to_N (byte_of n) = n.
Proof.
  intros H. unfold byte_of.
  destruct (Byte.of_N n) as [b|] eqn:E; [by apply Byte.to_of_N|].
  pose proof (Byte.to_of_N_option_map n) as M. rewrite E in M. simpl in M.
  destruct (N.leb_spec n 255); [discriminate | lia].
Qed.

Lemma testbit_small r n m : r < 2 ^ n → n ≤ m → N.testbit r m = false.
Proof.
  intros Hr Hm. destruct (N.eq_dec r 0) as [->|Hz]; [apply N.bits_0|].
  apply N.bits_above_log2. apply N.lt_le_trans with n; [|done].
  apply N.log2_lt_pow2; lia.
Qed.

Lemma land_shiftl_small a r : r < 64 → N.land (N.shiftl a 6) r = 0.
Proof.
  intros Hr. apply N.bits_inj. intros n. rewrite N.land_spec, N.bits_0.
  destruct (N.lt_ge_cases n 6).
  - by rewrite N.shiftl_spec_low.
  - rewrite (testbit_small r 6) by (simpl; lia). apply andb_false_r.
Qed.

Lemma lor_shiftl_small a r : r < 64 → N.lor (N.shiftl a 6) r = a * 64 + r.
Proof.
  intros Hr. rewrite <- N.lxor_lor by by apply land_shiftl_small.
  rewrite <- N.add_nocarry_lxor by by apply land_shiftl_small.
  by rewrite N.shiftl_mul_pow2.
Qed.

Lemma continuation_bits a r :
  r < 64 → N.lor (N.shiftl a 6) (N.land (128 + r) 63) = a * 64 + r.
Proof.
  intros Hr. change 63 with (N.ones 6). rewrite N.land_ones.
  replace ((128 + r) mod 2 ^ 6) with r by (change (2 ^ 6) with 64; divlia).
  by apply lor_shiftl_small.
Qed.

Lemma lead_bits k q n :
  q < 2 ^ n → k mod 2 ^ n = 0 → N.land (k + q) (N.ones n) = q.
Proof.
  intros Hq Hk. rewrite N.land_ones.
  rewrite N.Div0.add_mod, Hk, N.add_0_l, N.Div0.mod_mod. by apply N.mod_small.
Qed.

Lemma start_ascii c : c < 128 → start c = ([c], None).
Proof. intros H. unfold start. by destruct (N.leb_spec c 127); [|lia]. Qed.

Lemma start_lead2 q :
  2 ≤ q → q < 32 → start (192 + q) = ([], Some (Pending 1 q 128 191)).
Proof.
  intros H1 H2. unfold start.
  destruct (N.leb_spec (192 + q) 127); [lia|].
  destruct (N.leb_spec 194 (192 + q)); [|lia].
  destruct (N.leb_spec (192 + q) 223); [|lia]. cbn [andb].
  change 31 with (N.ones 5). by rewrite lead_bits.
Qed.

Lemma start_lead3 q :
  q < 16 →
  start (224 + q) =
    ([], Some (Pending 2 q (if q =? 0 then 160 else 128)
                 (if q =? 13 then 159 else 191))).
Proof.
  intros H. unfold start.
  destruct (N.leb_spec (224 + q) 127); [lia|].
  destruct (N.leb_spec 194 (224 + q)); [|lia].
  destruct (N.leb_spec (224 + q) 223); [lia|]. cbn [andb].
  destruct (N.leb_spec 224 (224 + q)); [|lia].
  destruct (N.leb_spec (224 + q) 239); [|lia]. cbn [andb].
  change 15 with (N.ones 4). rewrite lead_bits by done.
  replace (224 + q =? 224) with (q =? 0)
    by (destruct (N.eqb_spec q 0), (N.eqb_spec (224 + q) 224); lia).
  by replace (224 + q =? 237) with (q =? 13)
    by (destruct (N.eqb_spec q 13), (N.eqb_spec (224 + q) 237); lia).
Qed.

Lemma start_lead4 q :
  q < 5 →
  start (240 + q) =
    ([], Some (Pending 3 q (if q =? 0 then 144 else 128)
                 (if q =? 4 then 143 else 191))).
Proof.
  intros H. unfold start.
  destruct (N.leb_spec (240 + q) 127); [lia|].
  destruct (N.leb_spec 194 (240 + q)); [|lia].
  destruct (N.leb_spec (240 + q) 223); [lia|]. cbn [andb].
  destruct (N.leb_spec 224 (240 + q)); [|lia].
  destruct (N.leb_spec (240 + q) 239); [lia|]. cbn [andb].
  destruct (N.leb_spec 240 (240 + q)); [|lia].
  destruct (N.leb_spec (240 + q) 244); [|lia]. cbn [andb].
  change 7 with (N.ones 3). rewrite lead_bits by (done || (simpl; lia)).
  replace (240 + q =? 240) with (q =? 0)
    by (destruct (N.eqb_spec q 0), (N.eqb_spec (240 + q) 240); lia).
  by replace (240 + q =? 244) with (q =? 4)
    by (destruct (N.eqb_spec q 4), (N.eqb_spec (240 + q) 244); lia).
Qed.

Lemma decode_from_start b bs :
  decode_from None (b :: bs) =
    (start (Byte.to_N b)).1 ++ decode_from (start (Byte.to_N b)).2 bs.
Proof. done. Qed.

Lemma decode_from_continuation p r bs :
  r < 64 → lo p ≤ 128 + r → 128 + r ≤ hi p →
  decode_from (Some p) (byte_of (128 + r) :: bs) =
    match need p with
    | S (S k) => decode_from (Some (Pending (S k) (acc p * 64 + r) 128 191)) bs
    | _ => (acc p * 64 + r) :: decode_from None bs
    end.
Proof.
  intros Hr Hlo Hhi. cbn [decode_from]. rewrite to_N_byte_of by lia.
  destruct (N.leb_spec (lo p) (128 + r)); [|lia].
  destruct (N.leb_spec (128 + r) (hi p)); [|lia]. cbn [andb].
  rewrite continuation_bits by done. by destruct (need p) as [|[|k]].
Qed.

Ltac encoded_bytes :=
  rewrite ?fmap_cons, ?fmap_nil; cbn [app].

Lemma decode_utf8_encode_char c rest :
  scalar c →
  decode_from None (utf8_encode_char c ++ rest) = c :: decode_from None rest.
Proof.
  intros Hc. unfold scalar in Hc. unfold utf8_encode_char.
  destruct (N.ltb_spec c 128); [|destruct (N.ltb_spec c 2048);
    [|destruct (N.ltb_spec c 65536)]]; encoded_bytes.
  - rewrite decode_from_start, to_N_byte_of by lia. by rewrite start_ascii.
  - rewrite decode_from_start, to_N_byte_of by divlia.
    rewrite start_lead2 by divlia. cbn [fst snd app].
    rewrite decode_from_continuation; cbn [lo hi need acc]; try divlia.
    f_equal. divlia.
  - rewrite decode_from_start, to_N_byte_of by divlia.
    rewrite start_lead3 by divlia. cbn [fst snd app].
    rewrite decode_from_continuation; cbn [lo hi need acc]; try divlia.
    + rewrite decode_from_continuation; cbn [lo hi need acc]; try divlia.
      f_equal. divlia.
    + destruct (N.eqb_spec (c / 4096) 0); divlia.
    + destruct (N.eqb_spec (c / 4096) 13); divlia.
  - rewrite decode_from_start, to_N_byte_of by divlia.
    rewrite start_lead4 by divlia. cbn [fst snd app].
    rewrite decode_from_continuation; cbn [lo hi need acc]; try divlia.
    + rewrite decode_from_continuation; cbn [lo hi need acc]; try divlia.
      rewrite decode_from_continuation; cbn [lo hi need acc]; try divlia.
      f_equal. divlia.
    + destruct (N.eqb_spec (c / 262144) 0); divlia.
    + destruct (N.eqb_spec (c / 262144) 4); divlia.
Qed.

(** What was encoded is decoded, whatever follows. *)
Lemma decode_utf8_encode s rest :
  Forall scalar s →
  decode_from None (utf8_encode s ++ rest) = s ++ decode_from None rest.
Proof.
  induction 1 as [|c s Hc _ IH]; [done|].
  unfold utf8_encode in *. cbn [flat_map]. rewrite <- (assoc_L (++)).
  rewrite decode_utf8_encode_char by done. cbn [app]. by rewrite IH.
Qed.

Lemma decode_invalid_start b rest :
  invalid_start b →
  decode_from None (b :: rest) = REPLACEMENT :: decode_from None rest.
Proof.
  intros Hb. unfold invalid_start in Hb. rewrite decode_from_start.
  unfold start.
  destruct (N.leb_spec (Byte.to_N b) 127); [lia|].
  destruct (N.leb_spec 194 (Byte.to_N b)), (N.leb_spec (Byte.to_N b) 223);
    cbn [andb]; try lia;
  destruct (N.leb_spec 224 (Byte.to_N b)), (N.leb_spec (Byte.to_N b) 239);
    cbn [andb]; try lia;
  destruct (N.leb_spec 240 (Byte.to_N b)), (N.leb_spec (Byte.to_N b) 244);
    cbn [andb]; try lia; done.
Qed.

Lemma decode_from_broken p a rest :
  Byte.to_N a < 128 → 128 ≤ lo p →
  decode_from (Some p) (a :: rest) = REPLACEMENT :: decode_from None (a :: rest).
Proof.
  intros Ha Hlo. cbn [decode_from].
  by destruct (N.leb_spec (lo p) (Byte.to_N a)); [lia|].
Qed.

Ltac range_side :=
  first
    [ divlia
    | repeat match goal with
        | |- context [?x =? ?y] => destruct (N.eqb_spec x y)
        end; divlia ].

Ltac decode_step :=
  first
    [ rewrite decode_from_continuation;
        cbn [lo hi need acc]; [ | range_side | range_side | range_side ]
    | rewrite decode_from_broken;
        cbn [lo hi need acc]; [ | done | range_side ] ].

Ltac lead_step :=
  rewrite decode_from_start, to_N_byte_of by divlia;
  rewrite ?start_lead2, ?start_lead3, ?start_lead4 by divlia;
  cbn [fst snd app].

(** A form cut short, at the end of the input or by an ASCII byte, gives
    one U+FFFD, and decoding goes on with that byte. *)
Lemma decode_utf8_cut_short c (k : nat) a rest :
  scalar c →
  (0 < k < length (utf8_encode_char c))%nat →
  Byte.to_N a < 128 →
  decode_from None (take k (utf8_encode_char c)) = [REPLACEMENT]
  ∧ decode_from None (take k (utf8_encode_char c) ++ a :: rest)
    = REPLACEMENT :: decode_from None (a :: rest).
Proof.
  intros Hc Hk Ha. unfold scalar in Hc. unfold utf8_encode_char in *.
  destruct (N.ltb_spec c 128); [|destruct (N.ltb_spec c 2048);
    [|destruct (N.ltb_spec c 65536)]];
    rewrite ?fmap_cons, ?fmap_nil in *; cbn [length] in Hk.
  - lia.
  - destruct k as [|[|k]]; [lia| |lia]. cbn [take app].
    split; lead_step; repeat decode_step; done.
  - destruct k as [|[|[|k]]]; [lia| | |lia]; cbn [take app];
      split; lead_step; repeat decode_step; done.
  - destruct k as [|[|[|[|k]]]]; [lia| | | |lia]; cbn [take app];
      split; lead_step; repeat decode_step; done.
Qed.

(** A form cut short and then ASCII text, or the end. *)
Lemma decode_utf8_cut_then_ascii c (k : nat) (s' : pystr) :
  scalar c →
  (0 < k < length (utf8_encode_char c))%nat →
  Forall (λ a, a < 128) s' →
  decode_from None (take k (utf8_encode_char c) ++ utf8_encode s')
  = REPLACEMENT :: s'.
Proof.
  intros Hc Hk Hs'.
  assert (Hsc : Forall scalar s').
  { eapply Forall_impl; [exact Hs'|]. intros a Ha. unfold scalar.
    simpl in Ha. lia. }
  destruct s' as [|a s'].
  - rewrite app_nil_r.
    by destruct (decode_utf8_cut_short c k Byte.x00 [] Hc Hk).
  - apply Forall_cons in Hs' as [Ha _].
    change (utf8_encode (a :: s'))
      with (utf8_encode_char a ++ utf8_encode s').
    assert (E : utf8_encode_char a = [byte_of a]).
    { unfold utf8_encode_char. by destruct (N.ltb_spec a 128); [|lia]. }
    rewrite E. cbn [app].
    destruct (decode_utf8_cut_short c k (byte_of a) (utf8_encode s') Hc Hk)
      as [_ ->]; [by rewrite to_N_byte_of by lia|].
    f_equal.
    change (byte_of a :: utf8_encode s') with ([byte_of a] ++ utf8_encode s').
    rewrite <- E.
    change (utf8_encode_char a ++ utf8_encode s') with (utf8_encode (a :: s')).
    rewrite <- (app_nil_r (utf8_encode (a :: s'))).
    rewrite decode_utf8_encode by done. by rewrite app_nil_r.
Qed.

(** C4. Whatever is passed as [body], the excerpt has at most 2000
    characters. For bytes it is the first 2000 characters of their
    decoding, and the decoding is that of UTF-8 with replacement: bytes
    that are the UTF-8 form of a text give that text; a byte that begins
    no UTF-8 form gives U+FFFD in its place, and so does a form cut
    short, between texts that are decoded as before. The excerpt is what
    [save_event] puts in the row it inserts. *)
Theorem body_excerpt_at_most_2000 :
  ∀ body : Value,
    (length (body_excerpt body) ≤ 2000)%nat
    ∧ (∀ b : list Byte.byte,
         body_excerpt (VBytes b) = take 2000 (decode_utf8_replace b))
    ∧ (∀ s : pystr,
         Forall scalar s →
         body_excerpt (VBytes (utf8_encode s)) = take 2000 s)
    ∧ (∀ (s s' : pystr) (b : Byte.byte),
         Forall scalar s → Forall scalar s' → invalid_start b →
         body_excerpt (VBytes (utf8_encode s ++ b :: utf8_encode s'))
         = take 2000 (s ++ REPLACEMENT :: s'))
    ∧ (∀ (s s' : pystr) (c : N) (k : nat),
         Forall scalar s → scalar c →
         (0 < k < length (utf8_encode_char c))%nat →
         Forall (λ a, a < 128) s' →
         body_excerpt
           (VBytes (utf8_encode s ++ take k (utf8_encode_char c)
                      ++ utf8_encode s'))
         = take 2000 (s ++ REPLACEMENT :: s'))
    ∧ ∀ src_ip xff method path headers w,
        let w' := (save_event src_ip xff method path headers body w).2 in
        match fault (env w) DbInsert with
        | None =>
            ∃ row, events w' = events w ++ [row]
                   ∧ row_body row = body_excerpt body
                   ∧ (length (row_body row) ≤ 2000)%nat
        | Some _ => events w' = events w
        end.
Proof.
  intros body.
  assert (Hlen : (length (body_excerpt body) ≤ 2000)%nat).
  { unfold body_excerpt, res_bind.
    destruct body as [b|s| |[s|e]];
      first [apply slice_to_length | apply Nat.le_0_l]. }
  split; [done|]. split; [done|].
  split; [|split; [|split]].
  1-3: unfold body_excerpt, slice_to, decode_utf8_replace.
  - intros s Hs. rewrite <- (app_nil_r (utf8_encode s)).
    rewrite decode_utf8_encode by done. by rewrite app_nil_r.
  - intros s s' b Hs Hs' Hb.
    rewrite decode_utf8_encode, decode_invalid_start by done.
    rewrite <- (app_nil_r (utf8_encode s')).
    rewrite decode_utf8_encode by done. by rewrite app_nil_r.
  - intros s s' c k Hs Hc Hk Hs'.
    rewrite decode_utf8_encode by done.
    by rewrite decode_utf8_cut_then_ascii.
  - intros src_ip xff method path headers w w'. subst w'.
    rewrite save_event_run. cbn [snd events].
    destruct (fault (env w) DbInsert); [done|].
    eexists. split; [done|]. by split.
Qed.

(** ** [secure_filename] and the stored name *)

Lemma lstrip_Forall (P : N → Prop) cs s : Forall P s → Forall P (lstrip cs s).
Proof.
  induction 1 as [|c s Hc Hs IH]; simpl; [constructor|].
  destruct (mem c cs); [done | by constructor].
Qed.

Lemma strip_Forall (P : N → Prop) cs s : Forall P s → Forall P (strip cs s).
Proof.
  intros H. unfold strip, rstrip.
  apply Forall_rev, lstrip_Forall, Forall_rev, lstrip_Forall, H.
Qed.

Lemma filter_Forall (f : N → bool) s : Forall (λ c, f c = true) (List.filter f s).
Proof.
  induction s as [|c s IH]; simpl; [constructor|].
  destruct (f c) eqn:E; [by constructor | done].
Qed.

(** What [secure_filename] returns is made of letters, digits, [_], [.]
    and [-] only. *)
Lemma secure_filename_chars tbl filename :
  Forall (λ c, filename_char c = true) (secure_filename tbl filename).
Proof. unfold secure_filename. apply strip_Forall, filter_Forall. Qed.

Lemma uint_chars_digits d : Forall digit_or_minus (uint_chars d).
Proof.
  induction d; simpl; constructor; try done; right; lia.
Qed.

Lemma str_int_chars z : Forall digit_or_minus (str_int z).
Proof.
  unfold str_int. destruct (Z.to_int z).
  - apply uint_chars_digits.
  - constructor; [by left | apply uint_chars_digits].
Qed.

Lemma filename_char_not_separator c :
  filename_char c = true → c ≠ 47 ∧ c ≠ 92.
Proof.
  unfold filename_char, chr. simpl. intros H.
  split; intros ->; vm_compute in H; discriminate.
Qed.

(** The name under which a file is stored has no [/] and no backslash,
    and is neither [.] nor [..]. *)
Lemma stored_name_safe tbl (t : Z) (filename : pystr) :
  let name := str_int t ++ lit "_" ++ secure_filename tbl filename in
  (47 ∉ name) ∧ (92 ∉ name) ∧ name ≠ lit "." ∧ name ≠ lit "..".
Proof.
  intros name.
  assert (H : Forall (λ c, c ≠ 47 ∧ c ≠ 92) name).
  { subst name. apply Forall_app. split.
    - eapply Forall_impl; [apply str_int_chars|].
      intros c [->|[? ?]]; split; lia.
    - apply Forall_app. split.
      + by repeat constructor.
      + eapply Forall_impl; [apply secure_filename_chars|].
        apply filename_char_not_separator. }
  rewrite Forall_forall in H.
  assert (U : 95 ∈ name).
  { subst name. apply elem_of_app. right. apply elem_of_app. left.
    apply list_elem_of_here. }
  repeat split.
  - intros I. by destruct (H _ I).
  - intros I. by destruct (H _ I).
  - intros E. rewrite E in U. vm_compute in U.
    apply list_elem_of_singleton in U. discriminate.
  - intros E. rewrite E in U. vm_compute in U.
    apply elem_of_cons in U as [U|U]; [discriminate|].
    apply list_elem_of_singleton in U. discriminate.
Qed.

(** So [os.path.join] puts it right under the quarantine directory. *)
Lemma stored_path tbl (t : Z) (filename : pystr) :
  let name := str_int t ++ lit "_" ++ secure_filename tbl filename in
  os_path_join QUARANTINE_DIR name = lit "quarantine/" ++ name.
Proof.
  intros name. destruct (stored_name_safe tbl t filename) as (H & _).
  fold name in H. unfold os_path_join.
  destruct name as [|c name']; [done|].
  assert (c ≠ 47) as Hc by (intros ->; apply H, list_elem_of_here).
  change (starts_with (lit "/") (c :: name')) with ((47 =? c) && true).
  destruct (N.eqb_spec 47 c) as [E|_]; [by subst|]. done.
Qed.

(** ** [upload] *)

(** An upload that is found was read. *)
Lemma files_found request key file :
  files request !! key = Some file →
  ∃ uploads,
    files_read request = Fields uploads ∧ uploads !! key = Some file.
Proof.
  unfold files. destruct (files_read request) as [uploads|r]; [by eexists|].
  by rewrite lookup_empty.
Qed.

(** What [upload] does with a file that is truthy, by the faults of its
    three I/O steps. *)
Lemma upload_run tbl request w file :
  files request !! lit "file" = Some file →
  file_bool file = true →
  let fname := secure_filename tbl (or_default (filename file) (lit "upload")) in
  let path :=
    os_path_join QUARANTINE_DIR (str_int (time_time (env w)) ++ lit "_" ++ fname) in
  let ds := {[ QUARANTINE_DIR ]} ∪ dirs w in
  upload tbl request w =
    match fault (env w) MakeDirs with
    | Some e => (Raise e, w)
    | None =>
        match fault (env w) FileSave with
        | Some e =>
            (Ok {| body := lit "Failed"; status := 500 |},
             {| env := env w; events := events w; logfile := logfile w;
                dirs := ds;
                quarantine :=
                  match left_behind (env w) FileSave with
                  | None => quarantine w
                  | Some n => <[ path := take n (stream file) ]> (quarantine w)
                  end;
                app_log :=
                  app_log w ++ [lit "Failed to save upload: " ++ exn_text e] |})
        | None =>
            match fault (env w) NoteWrite with
            | Some e =>
                (Ok {| body := lit "Failed"; status := 500 |},
                 {| env := env w; events := events w;
                    logfile :=
                      logfile w
                        ++ take (default 0%nat (left_behind (env w) NoteWrite))
                             (utcnow_isoformat (env w)
                                ++ lit " | uploaded_file_saved: " ++ path
                                ++ [10]);
                    dirs := ds;
                    quarantine := <[ path := stream file ]> (quarantine w);
                    app_log :=
                      app_log w
                        ++ [lit "Failed to save upload: " ++ exn_text e] |})
            | None =>
                (Ok {| body := lit "OK"; status := 200 |},
                 {| env := env w; events := events w;
                    logfile :=
                      logfile w
                        ++ utcnow_isoformat (env w)
                        ++ lit " | uploaded_file_saved: " ++ path ++ [10];
                    dirs := ds;
                    quarantine := <[ path := stream file ]> (quarantine w);
                    app_log := app_log w |})
            end
        end
    end.
Proof.
  intros Hfile Hbool fname path ds.
  destruct (files_found _ _ _ Hfile) as (uploads & Hread & Hup).
  unfold upload. rewrite Hread, Hup, Hbool.
  unfold os_makedirs, file_save, append_logfile, logger_error, bind, try_,
    read_env, guard, set_dirs, set_quarantine, set_logfile, set_app_log, ret;
    cbn [env events logfile dirs quarantine app_log fst snd].
  destruct (fault (env w) MakeDirs);
    cbn [env events logfile dirs quarantine app_log fst snd]; [done|].
  destruct (fault (env w) FileSave);
    cbn [env events logfile dirs quarantine app_log fst snd].
  - by destruct (left_behind (env w) FileSave).
  - by destruct (fault (env w) NoteWrite).
Qed.

(** C5, at a name that sanitizing empties. The default [upload] is
    applied to the submitted name before [secure_filename], not to its
    result: for the name [../..] the base name is empty, and the file is
    stored as [quarantine/<seconds>_]. *)
Theorem upload_base_name_empty_for_dotdot :
  ∀ tbl,
    let request := sample_upload (lit "../..") in
    let w := sample_world [] in
    secure_filename tbl (or_default (Some (lit "../..")) (lit "upload")) = []
    ∧ (upload tbl request w).1 = Ok {| body := lit "OK"; status := 200 |}
    ∧ quarantine (upload tbl request w).2 !! lit "quarantine/1714564800_"
      = Some [Byte.x68; Byte.x69]
    ∧ quarantine (upload tbl request w).2 !! lit "quarantine/1714564800_upload"
      = None.
Proof. intros tbl. by vm_compute. Qed.

(** C6. When [upload] stores a file, it stores it at
    [quarantine/<seconds>_<secure_filename(name)>]; that name has no [/]
    and no backslash and is neither [.] nor [..], so the file is right
    under the quarantine directory. *)
Theorem upload_stored_name_has_no_separator :
  ∀ tbl request w file,
    files request !! lit "file" = Some file →
    file_bool file = true →
    fault (env w) MakeDirs = None →
    fault (env w) FileSave = None →
    let name :=
      str_int (time_time (env w)) ++ lit "_"
        ++ secure_filename tbl (or_default (filename file) (lit "upload")) in
    quarantine (upload tbl request w).2
      = <[ lit "quarantine/" ++ name := stream file ]> (quarantine w)
    ∧ (47 ∉ name) ∧ (92 ∉ name) ∧ name ≠ lit "." ∧ name ≠ lit "..".
Proof.
  intros tbl request w file Hfile Hbool Hmk Hsave name.
  split; [|apply stored_name_safe].
  rewrite (upload_run _ _ _ _ Hfile Hbool), Hmk, Hsave.
  rewrite stored_path. by destruct (fault (env w) NoteWrite).
Qed.

(** C7, at the failure the handler does not catch. [os.makedirs] is
    called before the [try]: when it raises, [upload] raises too, and the
    response is the framework's page for status 500, not the body
    [Failed]. *)
Theorem upload_raises_when_makedirs_fails :
  ∀ tbl request w file e,
    files request !! lit "file" = Some file →
    file_bool file = true →
    fault (env w) MakeDirs = Some e →
    upload tbl request w = (Raise e, w)
    ∧ (dispatch_request tbl Upload request w).1 = INTERNAL_SERVER_ERROR
    ∧ body (dispatch_request tbl Upload request w).1 ≠ lit "Failed".
Proof.
  intros tbl request w file e Hfile Hbool Hmk.
  pose proof (upload_run tbl _ w _ Hfile Hbool) as Hrun.
  simpl in Hrun. rewrite Hmk in Hrun.
  unfold dispatch_request. simpl. rewrite Hrun.
  repeat split. by vm_compute.
Qed.

(** What C7 says does hold for the two steps inside the [try]: [OK] and
    200 when all three steps go through, [Failed] and 500 when
    [file.save] or the note fails, whatever the exception says. *)
Lemma upload_response_inside_try tbl request w file :
  files request !! lit "file" = Some file →
  file_bool file = true →
  fault (env w) MakeDirs = None →
  (upload tbl request w).1 =
    match fault (env w) FileSave, fault (env w) NoteWrite with
    | None, None => Ok {| body := lit "OK"; status := 200 |}
    | _, _ => Ok {| body := lit "Failed"; status := 500 |}
    end.
Proof.
  intros Hfile Hbool Hmk.
  rewrite (upload_run _ _ _ _ Hfile Hbool), Hmk.
  destruct (fault (env w) FileSave); [done|].
  by destruct (fault (env w) NoteWrite).
Qed.

(** C9. When [file.save] goes through and the note cannot be appended,
    [upload] answers [Failed] with status 500, and the file is in the
    quarantine directory all the same. *)
Theorem upload_failed_yet_file_stored :
  ∀ tbl request w file e,
    files request !! lit "file" = Some file →
    file_bool file = true →
    fault (env w) MakeDirs = None →
    fault (env w) FileSave = None →
    fault (env w) NoteWrite = Some e →
    let path :=
      os_path_join QUARANTINE_DIR
        (str_int (time_time (env w)) ++ lit "_"
           ++ secure_filename tbl (or_default (filename file) (lit "upload"))) in
    (upload tbl request w).1 = Ok {| body := lit "Failed"; status := 500 |}
    ∧ quarantine (upload tbl request w).2 !! path = Some (stream file)
    ∧ logfile (upload tbl request w).2
      = logfile w
          ++ take (default 0%nat (left_behind (env w) NoteWrite))
               (utcnow_isoformat (env w) ++ lit " | uploaded_file_saved: "
                  ++ path ++ [10]).
Proof.
  intros tbl request w file e Hfile Hbool Hmk Hsave Hnote path.
  rewrite (upload_run _ _ _ _ Hfile Hbool), Hmk, Hsave, Hnote.
  cbn [fst snd quarantine logfile].
  repeat split. apply lookup_insert_eq.
Qed.

(** C10, as the code has it. When the uploads can be read and there is
    no field named [file], [upload] answers [OK] with status 200 and
    touches nothing: no directory, no file, no note. When reading them
    raises an HTTP error (413 for a body above [MAX_CONTENT_LENGTH]),
    the answer is that error's response, and nothing is touched either. *)
Theorem upload_without_file_field :
  ∀ tbl request w,
    (∀ uploads,
       files_read request = Fields uploads →
       uploads !! lit "file" = None →
       upload tbl request w = (Ok {| body := lit "OK"; status := 200 |}, w))
    ∧ (∀ r, files_read request = HttpError r →
            upload tbl request w = (Ok r, w)).
Proof.
  intros tbl request w. split.
  - intros uploads Hread Hnone. unfold upload. by rewrite Hread, Hnone.
  - intros r Hread. unfold upload. by rewrite Hread.
Qed.

(** C10 as stated fails: a POST above the size limit has no field named
    [file] that could be read, and is answered with status 413. *)
Lemma oversize_upload_is_not_ok :
  let request := sample_oversize (lit "/upload") in
  let w := sample_world [] in
  files request !! lit "file" = None
  ∧ (upload sample_decomposition request w).1 = Ok REQUEST_ENTITY_TOO_LARGE
  ∧ (upload sample_decomposition request w).1
    ≠ Ok {| body := lit "OK"; status := 200 |}.
Proof. by repeat split. Qed.

(** ** [admin_login] *)

(** C8, as the code has it. A POST to [/admin/login] whose form can be
    read is answered with status 401 and the body
    [<p>Login failed for USERNAME</p>], where USERNAME is the submitted
    user name ([None] when there is none); the state is untouched, and a
    request that differs in its form outside the field [username] (so,
    in its password) gets the same answer. When reading the form raises
    an HTTP error (413 for a body above [MAX_CONTENT_LENGTH]), the answer
    is that error's response. *)
Theorem admin_login_rejects_post_with_form :
  ∀ request w,
    method request = Ok (lit "POST") →
    match form_read request with
    | Fields fields =>
        admin_login request w =
          (Ok {| body :=
                   lit "<p>" ++ (lit "Login failed for "
                     ++ format_opt (fields !! lit "username")) ++ lit "</p>";
                 status := 401 |}, w)
        ∧ (∀ fields' : gmap (list N) (list N),
             fields' !! lit "username" = fields !! lit "username" →
             admin_login (with_form fields' request) w = admin_login request w)
    | HttpError r => admin_login request w = (Ok r, w)
    end.
Proof.
  intros request w Hm.
  assert (H : ∀ r fields,
    method r = Ok (lit "POST") → form_read r = Fields fields →
    admin_login r w =
      (Ok {| body :=
               lit "<p>" ++ (lit "Login failed for "
                 ++ format_opt (fields !! lit "username")) ++ lit "</p>";
             status := 401 |}, w)).
  { intros r fields Hr Hf. unfold admin_login, bind, lift. rewrite Hr, Hf.
    by rewrite decide_False by (by vm_compute). }
  destruct (form_read request) as [fields|r] eqn:Hf.
  - split; [by apply H|].
    intros fields' Hu.
    rewrite (H request fields Hm Hf), (H (with_form fields' request) fields' Hm eq_refl).
    by rewrite Hu.
  - unfold admin_login, bind, lift. rewrite Hm, Hf.
    by rewrite decide_False by (by vm_compute).
Qed.

(** C8 as stated fails: a POST to [/admin/login] above the size limit is
    answered with status 413, not 401. *)
Lemma oversize_login_is_not_401 :
  let request := sample_oversize (lit "/admin/login") in
  let w := sample_world [] in
  method request = Ok (lit "POST")
  ∧ (admin_login request w).1 = Ok REQUEST_ENTITY_TOO_LARGE
  ∧ status REQUEST_ENTITY_TOO_LARGE = 413%Z
  ∧ ∀ page, (admin_login request w).1 ≠ Ok {| body := page; status := 401 |}.
Proof. by repeat split. Qed.

(** ** The theorems at concrete requests *)

(** The whole pipeline on [POST /admin/login] with
    [username=admin&password=x]: the answer, and the row captured. *)
Example admin_login_scenario :
  let r := full_dispatch_request sample_decomposition AdminLogin sample_login
             (sample_world []) in
  r.1 = {| body := lit "<p>Login failed for admin</p>"; status := 401 |}
  ∧ events r.2 =
      [ {| row_ts := lit "2024-05-01T12:00:00.250000Z";
           row_src_ip := lit "203.0.113.7";
           row_xff := [];
           row_method := lit "POST";
           row_path := lit "/admin/login";
           row_headers :=
             html (lit "{'User-Agent': 'curl/8.5.0', 'X-Forwarded-For': '', 'Content-Type': '', 'Accept': ''}");
           row_body := lit "hi" |} ]
  ∧ logfile r.2 = [].
Proof. by vm_compute. Qed.

Lemma euro_and_stray_bytes_are_decoded :
  body_excerpt
    (VBytes (utf8_encode [0x20AC] ++ Byte.xff :: utf8_encode (lit "a")))
  = [0x20AC; 0xFFFD; 0x61]
  ∧ body_excerpt
      (VBytes (utf8_encode (lit "a") ++ take 2 (utf8_encode_char 0x20AC)
                 ++ utf8_encode (lit "b")))
    = [0x61; 0xFFFD; 0x62].
Proof.
  destruct (body_excerpt_at_most_2000 VNone) as (_ & _ & _ & H4 & H5 & _).
  split.
  - apply (H4 [0x20AC] (lit "a") Byte.xff).
    + repeat constructor; unfold scalar; lia.
    + repeat constructor; unfold scalar; lia.
    + right. by vm_compute.
  - apply (H5 (lit "a") (lit "b") 0x20AC 2%nat).
    + repeat constructor; unfold scalar; lia.
    + unfold scalar. lia.
    + split; vm_compute; lia.
    + repeat constructor.
Defined.

Lemma etc_passwd_is_quarantined :
  let request := sample_upload (lit "../../etc/passwd") in
  let w := sample_world [] in
  quarantine (upload sample_decomposition request w).2
    = <[ lit "quarantine/1714564800_etc_passwd" := [Byte.x68; Byte.x69] ]>
        (quarantine w)
  ∧ (47 ∉ lit "1714564800_etc_passwd").
Proof.
  intros request w.
  destruct (upload_stored_name_has_no_separator sample_decomposition request w
              {| filename := Some (lit "../../etc/passwd");
                 stream := [Byte.x68; Byte.x69] |}
              eq_refl eq_refl eq_refl eq_refl) as (H1 & H2 & _).
  split; [exact H1 | exact H2].
Defined.

Lemma notes_txt_without_directory :
  let request := sample_upload (lit "notes.txt") in
  let w := sample_world [MakeDirs] in
  upload sample_decomposition request w = (Raise io_error, w)
  ∧ status (dispatch_request sample_decomposition Upload request w).1 = 500%Z
  ∧ body (dispatch_request sample_decomposition Upload request w).1
    ≠ lit "Failed".
Proof.
  intros request w.
  destruct (upload_raises_when_makedirs_fails sample_decomposition request w
              {| filename := Some (lit "notes.txt");
                 stream := [Byte.x68; Byte.x69] |}
              io_error eq_refl eq_refl eq_refl) as (H1 & H2 & H3).
  split; [exact H1|]. split; [by rewrite H2 | exact H3].
Defined.

Lemma notes_txt_without_note :
  let request := sample_upload (lit "notes.txt") in
  let w := sample_world [NoteWrite] in
  (upload sample_decomposition request w).1
    = Ok {| body := lit "Failed"; status := 500 |}
  ∧ quarantine (upload sample_decomposition request w).2
      !! lit "quarantine/1714564800_notes.txt"
    = Some [Byte.x68; Byte.x69].
Proof.
  intros request w.
  destruct (upload_failed_yet_file_stored sample_decomposition request w
              {| filename := Some (lit "notes.txt");
                 stream := [Byte.x68; Byte.x69] |}
              io_error eq_refl eq_refl eq_refl eq_refl eq_refl)
    as (H1 & H2 & _).
  split; [exact H1 | exact H2].
Defined.

Lemma post_without_file_field :
  let request := sample_request (lit "/upload") ∅ ∅ in
  let w := sample_world [] in
  files request !! lit "file" = None
  ∧ upload sample_decomposition request w
    = (Ok {| body := lit "OK"; status := 200 |}, w).
Proof.
  intros request w. split; [reflexivity|].
  exact (proj1 (upload_without_file_field sample_decomposition request w)
           ∅ eq_refl eq_refl).
Defined.

Lemma login_of_admin_is_rejected :
  let w := sample_world [] in
  method sample_login = Ok (lit "POST")
  ∧ admin_login sample_login w
    = (Ok {| body := lit "<p>Login failed for admin</p>"; status := 401 |}, w)
  ∧ admin_login
      (with_form {[ lit "username" := lit "admin";
                    lit "password" := lit "hunter2" ]} sample_login) w
    = admin_login sample_login w.
Proof.
  intros w. split; [reflexivity|].
  destruct (admin_login_rejects_post_with_form sample_login w eq_refl)
    as (H1 & H3).
  split; [exact H1 | exact (H3 _ eq_refl)].
Defined.

(** * Further facts *)

(** ** What [log_request] records *)

(** Either one of the reads raised and only the logger heard of it, or
    all were read and [save_event] got the values. *)
Lemma log_request_cases request w :
  (∃ e, log_request request w =
          (Ok tt,
           {| env := env w; events := events w; logfile := logfile w;
              dirs := dirs w; quarantine := quarantine w;
              app_log := app_log w ++ [lit "Logging failure: " ++ exn_text e] |})
        ∧ ((remote_addr request = Raise e)
           ∨ (headers request = Raise e)
           ∨ (∃ hs, headers request = Ok hs
                    ∧ hget hs (lit "X-Forwarded-For") [] = Raise e)
           ∨ (method request = Raise e)
           ∨ (path request = Raise e)
           ∨ (get_data request = Raise e)))
  ∨ (∃ addr hs xff m p data,
       remote_addr request = Ok addr ∧ headers request = Ok hs
       ∧ hget hs (lit "X-Forwarded-For") [] = Ok xff
       ∧ method request = Ok m ∧ path request = Ok p
       ∧ get_data request = Ok data
       ∧ log_request request w =
           save_event (or_default addr (lit "unknown")) xff m p hs
             (VBytes (slice_to 2000 data)) w).
Proof.
  destruct (remote_addr request) as [addr|e] eqn:Ha;
    [|left; exists e; split;
      [unfold log_request, try_, bind, lift; by rewrite Ha | by left]].
  destruct (headers request) as [hs|e] eqn:Hh;
    [|left; exists e; split;
      [unfold log_request, try_, bind, lift; by rewrite Ha, Hh | by right; left]].
  destruct (hget hs (lit "X-Forwarded-For") []) as [xff|e] eqn:Hx;
    [|left; exists e; split;
      [unfold log_request, try_, bind, lift; by rewrite Ha, Hh, Hx
      | right; right; left; by exists hs]].
  destruct (method request) as [m|e] eqn:Hm;
    [|left; exists e; split;
      [unfold log_request, try_, bind, lift; by rewrite Ha, Hh, Hx, Hm
      | by right; right; right; left]].
  destruct (path request) as [p|e] eqn:Hp;
    [|left; exists e; split;
      [unfold log_request, try_, bind, lift; by rewrite Ha, Hh, Hx, Hm, Hp
      | by right; right; right; right; left]].
  destruct (get_data request) as [data|e] eqn:Hd;
    [|left; exists e; split;
      [unfold log_request, try_, bind, lift; by rewrite Ha, Hh, Hx, Hm, Hp, Hd
      | by right; right; right; right; right]].
  right. exists addr, hs, xff, m, p, data. repeat split; try done.
  by apply log_request_run.
Qed.

(** X1. A request whose attributes can all be read, with the database
    working, adds exactly one row: the peer address (or [unknown] when
    there is none), the forwarding header, method and path as read, the
    four kept headers as JSON, and the decoding of the first 2000 bytes
    of the body, whole. Log file and logger are not written. *)
Theorem log_request_records_one_row :
  ∀ request w addr hs xff m p data,
    remote_addr request = Ok addr →
    headers request = Ok hs →
    hget hs (lit "X-Forwarded-For") [] = Ok xff →
    method request = Ok m →
    path request = Ok p →
    get_data request = Ok data →
    fault (env w) DbInsert = None →
    let w' := (log_request request w).2 in
    events w' =
      events w ++
        [ {| row_ts :=
               replace (lit "+00:00") (lit "Z") (utcnow_isoformat (env w));
             row_src_ip := or_default addr (lit "unknown");
             row_xff := xff; row_method := m; row_path := p;
             row_headers := json_dumps (header_summary hs);
             row_body := decode_utf8_replace (take 2000 data) |} ]
    ∧ logfile w' = logfile w ∧ app_log w' = app_log w.
Proof.
  intros request w addr hs xff m p data Ha Hh Hx Hm Hp Hd Hdb w'. subst w'.
  rewrite (log_request_run _ _ _ _ _ _ _ _ Ha Hh Hx Hm Hp Hd).
  rewrite save_event_run, Hdb. cbn [snd events logfile app_log].
  by rewrite body_excerpt_of_request_data.
Qed.

(** X2. When reading the request raises, the event is dropped: no row,
    no log line; the logger gets one record with the exception's text. *)
Theorem log_request_drops_unreadable_request :
  ∀ request w e,
    (remote_addr request = Raise e)
    ∨ (headers request = Raise e)
    ∨ (∃ hs, headers request = Ok hs
             ∧ hget hs (lit "X-Forwarded-For") [] = Raise e)
    ∨ (method request = Raise e)
    ∨ (path request = Raise e)
    ∨ (get_data request = Raise e) →
    let w' := (log_request request w).2 in
    events w' = events w ∧ logfile w' = logfile w
    ∧ ∃ e', app_log w' = app_log w ++ [lit "Logging failure: " ++ exn_text e'].
Proof.
  intros request w e Hraise w'. subst w'.
  destruct (log_request_cases request w)
    as [(e' & -> & _) | (addr & hs & xff & m & p & data
                         & Ha & Hh & Hx & Hm & Hp & Hd & _)].
  - simpl. repeat split. by exists e'.
  - destruct Hraise as [H|[H|[(hs' & H1 & H2)|[H|[H|H]]]]]; congruence.
Qed.

(** X3. When the INSERT raises, the logger gets exactly one record,
    with the text of that exception, whether the log file could be
    written or not: a failure of the fallback write itself leaves no
    trace. When the INSERT goes through the logger is not called. *)
Theorem save_event_reports_primary_failure_only :
  ∀ src_ip xff method path headers body w,
    let w' := (save_event src_ip xff method path headers body w).2 in
    app_log w' =
      match fault (env w) DbInsert with
      | Some e => app_log w ++ [lit "Logging failure: " ++ exn_text e]
      | None => app_log w
      end
    ∧ dirs w' = dirs w ∧ quarantine w' = quarantine w.
Proof.
  intros. subst w'. rewrite save_event_run.
  by destruct (fault (env w) DbInsert).
Qed.

(** ** What the views leave alone *)

Lemma static_views_change_nothing tbl ep request w :
  ep ≠ Upload → (view tbl ep request w).2 = w.
Proof.
  intros Hep. destruct ep; simpl; try done.
  unfold admin_login, bind, lift.
  destruct (method request) as [m|e]; [|done].
  destruct (decide (m = lit "GET")); [done|].
  by destruct (form_read request).
Qed.

Lemma view_keeps_events tbl ep request w :
  events (view tbl ep request w).2 = events w.
Proof.
  destruct (decide (ep = Upload)) as [->|Hep];
    [|by rewrite static_views_change_nothing].
  simpl.
  destruct (files request !! lit "file") as [file|] eqn:Hfile.
  - destruct (file_bool file) eqn:Hbool.
    + rewrite (upload_run tbl request w file Hfile Hbool).
      destruct (fault (env w) MakeDirs); [done|].
      destruct (fault (env w) FileSave); [done|].
      by destruct (fault (env w) NoteWrite).
    + destruct (files_found _ _ _ Hfile) as (uploads & Hread & Hup).
      unfold upload. by rewrite Hread, Hup, Hbool.
  - unfold upload, files in *.
    destruct (files_read request) as [uploads|r]; [|done].
    by rewrite Hfile.
Qed.

(** X4. No view writes the events table, and only [upload] changes
    anything at all: [index], [admin], [admin_login] and [api_data] leave
    the whole state as it is, whatever the request. *)
Theorem views_leave_the_events_table_alone :
  ∀ tbl ep request w,
    events (view tbl ep request w).2 = events w
    ∧ (ep ≠ Upload → (view tbl ep request w).2 = w).
Proof.
  intros tbl ep request w. split.
  - apply view_keeps_events.
  - apply static_views_change_nothing.
Qed.

(** X5. What a request leaves in the events table is decided before its
    view runs and does not depend on the view or on how it ends; and a
    request adds no row or one row, never more. *)
Theorem one_request_at_most_one_row :
  ∀ tbl ep request w,
    events (full_dispatch_request tbl ep request w).2
      = events (log_request request w).2
    ∧ (events (log_request request w).2 = events w
       ∨ ∃ row, events (log_request request w).2 = events w ++ [row]).
Proof.
  intros tbl ep request w. split.
  - unfold full_dispatch_request.
    destruct (returns_log_request request w) as ([] & w1 & ->). simpl.
    unfold dispatch_request.
    pose proof (view_keeps_events tbl ep request w1) as H.
    by destruct (view tbl ep request w1) as [[rv|e] w2].
  - destruct (log_request_cases request w)
      as [(e & -> & _) | (addr & hs & xff & m & p & data & _ & _ & _ & _ & _ & _ & ->)].
    + by left.
    + rewrite save_event_run. simpl.
      destruct (fault (env w) DbInsert); [by left | right; by eexists].
Qed.

(** ** Nothing is taken back *)

Lemma extends_refl w : extends w w.
Proof. by repeat split. Qed.

Lemma extends_trans w1 w2 w3 : extends w1 w2 → extends w2 w3 → extends w1 w3.
Proof.
  intros (E1 & L1 & A1 & D1 & Q1) (E2 & L2 & A2 & D2 & Q2).
  repeat split; try (by etrans); set_solver.
Qed.

Section Growing.
Context {A B : Type}.

Lemma growing_ret (a : A) : growing (ret a).
Proof. intros w. apply extends_refl. Qed.

Lemma growing_lift (r : Res A) : growing (lift r).
Proof. intros w. apply extends_refl. Qed.

Lemma growing_read_env (f : Env -> A) : growing (read_env f).
Proof. intros w. apply extends_refl. Qed.

Lemma growing_bind (m : M A) (k : A -> M B) :
  growing m → (∀ a, growing (k a)) → growing (bind m k).
Proof.
  intros Hm Hk w. unfold bind. specialize (Hm w).
  destruct (m w) as [[a|e] w1]; simpl in *; [|done].
  eapply extends_trans; [exact Hm | apply Hk].
Qed.

Lemma growing_try (m : M A) (h : exn -> M A) :
  growing m → (∀ e, growing (h e)) → growing (try_ m h).
Proof.
  intros Hm Hh w. unfold try_. specialize (Hm w).
  destruct (m w) as [[a|e] w1]; simpl in *; [done|].
  eapply extends_trans; [exact Hm | apply Hh].
Qed.
End Growing.

Lemma growing_guard_then {A} (s : Site) (m : M A) :
  growing m → growing (guard s ;; m).
Proof.
  intros Hm w. unfold bind, guard.
  destruct (fault (env w) s); [apply extends_refl | apply Hm].
Qed.

Lemma growing_sqlite_insert row : growing (sqlite_insert row).
Proof.
  apply growing_guard_then. intros w. repeat split; simpl; try done.
  by apply prefix_app_r.
Qed.

Lemma growing_append_logfile s text : growing (append_logfile s text).
Proof.
  intros w. unfold append_logfile.
  destruct (fault (env w) s); repeat split; simpl; try done;
    by apply prefix_app_r.
Qed.

Lemma growing_logger_error prefix e : growing (logger_error prefix e).
Proof.
  intros w. repeat split; simpl; try done. by apply prefix_app_r.
Qed.

Lemma growing_os_makedirs d : growing (os_makedirs d).
Proof.
  apply growing_guard_then. intros w. repeat split; simpl; try done.
  set_solver.
Qed.

Lemma growing_file_save file path : growing (file_save file path).
Proof.
  intros w. unfold file_save.
  destruct (fault (env w) FileSave), (left_behind (env w) FileSave);
    repeat split; simpl; try done; rewrite dom_insert_L; set_solver.
Qed.

Create HintDb grow discriminated.
#[global] Hint Resolve growing_ret growing_lift growing_read_env
  growing_sqlite_insert growing_append_logfile growing_logger_error
  growing_os_makedirs growing_file_save : grow.

Ltac growing_tac :=
  repeat first
    [ progress intros
    | solve [auto with grow]
    | apply growing_bind
    | apply growing_try
    | match goal with |- growing (if ?b then _ else _) => destruct b end
    | match goal with |- growing (match ?x with _ => _ end) => destruct x end ].

Lemma growing_save_event src_ip xff method path headers body :
  growing (save_event src_ip xff method path headers body).
Proof. unfold save_event. growing_tac. Qed.

#[global] Hint Resolve growing_save_event : grow.

Lemma growing_log_request request : growing (log_request request).
Proof. unfold log_request. growing_tac. Qed.

Lemma growing_view tbl ep request : growing (view tbl ep request).
Proof.
  destruct ep; simpl; unfold index, admin, admin_login, api_data, upload;
    growing_tac.
Qed.

(** X6. Serving a request takes nothing back: the rows, the log text
    and the logger records there before are a prefix of those there
    after; every directory and every quarantined path is still there. No
    endpoint deletes, truncates or rewrites what was recorded. *)
Theorem full_dispatch_request_only_adds :
  ∀ tbl ep request w,
    let w' := (full_dispatch_request tbl ep request w).2 in
    events w `prefix_of` events w'
    ∧ logfile w `prefix_of` logfile w'
    ∧ app_log w `prefix_of` app_log w'
    ∧ dirs w ⊆ dirs w'
    ∧ dom (quarantine w) ⊆ dom (quarantine w').
Proof.
  intros tbl ep request w w'. subst w'.
  change (extends w (full_dispatch_request tbl ep request w).2).
  unfold full_dispatch_request.
  pose proof (growing_log_request request w) as H1.
  destruct (log_request request w) as [[[]|e] w1]; simpl in *; [|done].
  unfold dispatch_request.
  pose proof (growing_view tbl ep request w1) as H2.
  destruct (view tbl ep request w1) as [[rv|e] w2]; simpl in *;
    by eapply extends_trans.
Qed.

(** ** More on [upload] *)

(** X7. A file part without a file name counts as no file: [upload]
    answers [OK] with status 200 and stores nothing, writes no note and
    creates no directory. *)
Theorem upload_skips_file_without_name :
  ∀ tbl request w file,
    files request !! lit "file" = Some file →
    filename file = None ∨ filename file = Some [] →
    upload tbl request w = (Ok {| body := lit "OK"; status := 200 |}, w).
Proof.
  intros tbl request w file Hfile Hname.
  destruct (files_found _ _ _ Hfile) as (uploads & Hread & Hup).
  unfold upload, file_bool. rewrite Hread, Hup.
  by destruct Hname as [-> | ->].
Qed.

(** X8. When the directory can be made, the file saved and the note
    written, [upload] answers [OK] with status 200, the content is in the
    quarantine under [quarantine/<seconds>_<sanitized name>], the log
    file ends with the note [<isoformat> | uploaded_file_saved: <path>]
    and a newline, and the logger is not called. *)
Theorem upload_success_stores_file_and_note :
  ∀ tbl request w file,
    files request !! lit "file" = Some file →
    file_bool file = true →
    fault (env w) MakeDirs = None →
    fault (env w) FileSave = None →
    fault (env w) NoteWrite = None →
    let path :=
      lit "quarantine/" ++ str_int (time_time (env w)) ++ lit "_"
        ++ secure_filename tbl (or_default (filename file) (lit "upload")) in
    let w' := (upload tbl request w).2 in
    (upload tbl request w).1 = Ok {| body := lit "OK"; status := 200 |}
    ∧ quarantine w' !! path = Some (stream file)
    ∧ logfile w' =
        logfile w ++ utcnow_isoformat (env w)
          ++ lit " | uploaded_file_saved: " ++ path ++ [10]
    ∧ QUARANTINE_DIR ∈ dirs w'
    ∧ app_log w' = app_log w.
Proof.
  intros tbl request w file Hfile Hbool Hmk Hsave Hnote path w'.
  subst w' path.
  rewrite (upload_run _ _ _ _ Hfile Hbool), Hmk, Hsave, Hnote.
  rewrite stored_path. simpl. repeat split.
  - apply lookup_insert_eq.
  - set_solver.
Qed.

(** X9. When [file.save] raises, [upload] answers [Failed] with status
    500 whatever the exception is, and no note is written; the logger
    gets one record with the exception's text. The quarantine is as it
    was when [file.save] raised before writing; otherwise a file with
    the first part of the content that was written stays at the path. *)
Theorem upload_save_failure_leaves_at_most_a_part :
  ∀ tbl request w file e,
    files request !! lit "file" = Some file →
    file_bool file = true →
    fault (env w) MakeDirs = None →
    fault (env w) FileSave = Some e →
    let path :=
      lit "quarantine/" ++ str_int (time_time (env w)) ++ lit "_"
        ++ secure_filename tbl (or_default (filename file) (lit "upload")) in
    let w' := (upload tbl request w).2 in
    (upload tbl request w).1 = Ok {| body := lit "Failed"; status := 500 |}
    ∧ quarantine w' =
        match left_behind (env w) FileSave with
        | None => quarantine w
        | Some n => <[ path := take n (stream file) ]> (quarantine w)
        end
    ∧ logfile w' = logfile w
    ∧ app_log w' = app_log w ++ [lit "Failed to save upload: " ++ exn_text e].
Proof.
  intros tbl request w file e Hfile Hbool Hmk Hsave path w'. subst w' path.
  by rewrite (upload_run _ _ _ _ Hfile Hbool), Hmk, Hsave, stored_path.
Qed.

Lemma upload_stores tbl request w file :
  files request !! lit "file" = Some file →
  file_bool file = true →
  fault (env w) MakeDirs = None →
  fault (env w) FileSave = None →
  env (upload tbl request w).2 = env w
  ∧ quarantine (upload tbl request w).2
    = <[ lit "quarantine/" ++ str_int (time_time (env w)) ++ lit "_"
           ++ secure_filename tbl (or_default (filename file) (lit "upload"))
         := stream file ]> (quarantine w).
Proof.
  intros Hfile Hbool Hmk Hsave.
  rewrite (upload_run _ _ _ _ Hfile Hbool), Hmk, Hsave, stored_path.
  by destruct (fault (env w) NoteWrite).
Qed.

(** X10. Two uploads in the same second whose names sanitize to the same
    text go to the same path: the second replaces the first, and only
    its content is left in the quarantine. *)
Theorem upload_same_second_same_name_overwrites :
  ∀ tbl request1 request2 w file1 file2,
    files request1 !! lit "file" = Some file1 →
    files request2 !! lit "file" = Some file2 →
    file_bool file1 = true →
    file_bool file2 = true →
    secure_filename tbl (or_default (filename file1) (lit "upload"))
      = secure_filename tbl (or_default (filename file2) (lit "upload")) →
    fault (env w) MakeDirs = None →
    fault (env w) FileSave = None →
    let path :=
      lit "quarantine/" ++ str_int (time_time (env w)) ++ lit "_"
        ++ secure_filename tbl (or_default (filename file2) (lit "upload")) in
    quarantine (upload tbl request2 (upload tbl request1 w).2).2
      = <[ path := stream file2 ]> (quarantine w).
Proof.
  intros tbl request1 request2 w file1 file2 Hf1 Hf2 Hb1 Hb2 Hname Hmk Hsave
    path. subst path.
  destruct (upload_stores tbl request1 w file1 Hf1 Hb1 Hmk Hsave) as [E1 Q1].
  destruct (upload_stores tbl request2 (upload tbl request1 w).2 file2 Hf2 Hb2)
    as [_ Q2]; [by rewrite E1..|].
  rewrite Q2, Q1, E1, Hname. apply insert_insert_eq.
Qed.

Lemma uint_chars_is_digit d : Forall is_digit (uint_chars d).
Proof. induction d; simpl; constructor; try done; unfold is_digit; lia. Qed.

Lemma uint_chars_inj d d' : uint_chars d = uint_chars d' → d = d'.
Proof.
  revert d'. induction d; intros []; simpl; intros H; try discriminate;
    try done; injection H as H; f_equal; by apply IHd.
Qed.

(** [str(int)] tells integers apart. *)
Lemma str_int_inj z z' : str_int z = str_int z' → z = z'.
Proof.
  unfold str_int. intros H. apply DecimalZ.to_int_inj.
  destruct (Z.to_int z) as [d|d], (Z.to_int z') as [d'|d'].
  - f_equal. by apply uint_chars_inj.
  - pose proof (uint_chars_is_digit d) as F. rewrite H in F.
    apply Forall_cons in F as [[F _] _]. vm_compute in F. by destruct F.
  - pose proof (uint_chars_is_digit d') as F. rewrite <- H in F.
    apply Forall_cons in F as [[F _] _]. vm_compute in F. by destruct F.
  - injection H as H. f_equal. by apply uint_chars_inj.
Qed.

Lemma split_at_first (x : N) l1 r1 l2 r2 :
  x ∉ l1 → x ∉ l2 → l1 ++ x :: r1 = l2 ++ x :: r2 → l1 = l2 ∧ r1 = r2.
Proof.
  revert l2. induction l1 as [|a l1 IH]; intros [|b l2] H1 H2 E; simpl in *.
  - by injection E.
  - injection E as -> _. exfalso. apply H2, list_elem_of_here.
  - injection E as -> _. exfalso. apply H1, list_elem_of_here.
  - injection E as -> E.
    apply not_elem_of_cons in H1 as [_ H1].
    apply not_elem_of_cons in H2 as [_ H2].
    destruct (IH l2 H1 H2 E) as [-> ->]. done.
Qed.

Lemma str_int_no_underscore z : 95 ∉ str_int z.
Proof.
  intros I. pose proof (str_int_chars z) as F.
  rewrite Forall_forall in F. destruct (F _ I) as [?|[? ?]]; lia.
Qed.

(** X11. The path of a stored file tells the second and the sanitized
    name: uploads made in different seconds, or whose sanitized names
    differ, never go to the same path. *)
Theorem upload_path_tells_second_and_name :
  ∀ tbl (t t' : Z) (name name' : pystr),
    os_path_join QUARANTINE_DIR
      (str_int t ++ lit "_" ++ secure_filename tbl name)
    = os_path_join QUARANTINE_DIR
        (str_int t' ++ lit "_" ++ secure_filename tbl name') →
    t = t' ∧ secure_filename tbl name = secure_filename tbl name'.
Proof.
  intros tbl t t' name name' E.
  rewrite !stored_path in E. apply app_inv_head in E.
  apply split_at_first in E as [Ht Hn]; try apply str_int_no_underscore.
  split; [by apply str_int_inj | done].
Qed.

(** ** More on what [save_event] keeps *)

(** X12. Of the request's headers the summary has the four kept ones,
    found whatever the case of their names, and nothing else: a header
    that the environ holds elsewhere than the four never reaches the
    summary, so adding or changing it leaves the summary (and so the row
    and the log line) as it was. *)
Theorem header_summary_keeps_four_environ_headers :
  ∀ (environ : gmap (list N) (list N)),
    header_summary (environ_headers environ) =
      [(lit "User-Agent", default [] (environ !! lit "HTTP_USER_AGENT"));
       (lit "X-Forwarded-For",
        default [] (environ !! lit "HTTP_X_FORWARDED_FOR"));
       (lit "Content-Type", default [] (environ !! lit "CONTENT_TYPE"));
       (lit "Accept", default [] (environ !! lit "HTTP_ACCEPT"))]
    ∧ ∀ (name value : pystr),
        environ_key name ∉ KEPT_ENVIRON →
        header_summary (environ_headers (<[ environ_key name := value ]> environ))
        = header_summary (environ_headers environ).
Proof.
  intros environ.
  assert (H : ∀ m : gmap (list N) (list N),
    header_summary (environ_headers m) =
      [(lit "User-Agent", default [] (m !! lit "HTTP_USER_AGENT"));
       (lit "X-Forwarded-For", default [] (m !! lit "HTTP_X_FORWARDED_FOR"));
       (lit "Content-Type", default [] (m !! lit "CONTENT_TYPE"));
       (lit "Accept", default [] (m !! lit "HTTP_ACCEPT"))]) by done.
  split; [apply H|].
  intros name value Hkey. rewrite !H.
  change KEPT_ENVIRON
    with [lit "HTTP_USER_AGENT"; lit "HTTP_X_FORWARDED_FOR";
          lit "CONTENT_TYPE"; lit "HTTP_ACCEPT"] in Hkey.
  repeat (apply not_elem_of_cons in Hkey as [? Hkey]).
  by rewrite !lookup_insert_ne.
Qed.

Lemma replace_utc_suffix (d : pystr) :
  43 ∉ d →
  replace (lit "+00:00") (lit "Z") (d ++ lit "+00:00") = d ++ lit "Z".
Proof.
  induction d as [|c d IH]; intros Hd; [by vm_compute|].
  apply not_elem_of_cons in Hd as [Hc Hd]. specialize (IH Hd).
  change (replace (lit "+00:00") (lit "Z") ((c :: d) ++ lit "+00:00"))
    with (if (43 =? c) && starts_with (lit "00:00") (d ++ lit "+00:00")
          then lit "Z" ++ replace_from (lit "+00:00") (lit "Z") 5
                            (d ++ lit "+00:00")
          else c :: replace (lit "+00:00") (lit "Z") (d ++ lit "+00:00")).
  destruct (N.eqb_spec 43 c) as [E|_]; [by subst|].
  by rewrite andb_false_l, IH.
Qed.

(** X13. With a clock in UTC, whose [isoformat()] is some text without
    [+] followed by [+00:00], the time stamp of the event is that text
    followed by [Z], in the row and at the head of the log line alike
    (of which a failing write leaves a first part). *)
Theorem save_event_timestamp_ends_in_Z :
  ∀ src_ip xff method path headers body w (d : pystr),
    utcnow_isoformat (env w) = d ++ lit "+00:00" →
    43 ∉ d →
    let w' := (save_event src_ip xff method path headers body w).2 in
    match fault (env w) DbInsert, fault (env w) FallbackWrite with
    | None, _ => ∃ row, events w' = events w ++ [row] ∧ row_ts row = d ++ lit "Z"
    | Some _, None =>
        ∃ rest, logfile w' = logfile w ++ (d ++ lit "Z") ++ lit " | " ++ rest
    | Some _, Some _ =>
        events w' = events w
        ∧ ∃ rest,
            logfile w' =
              logfile w
                ++ take (default 0%nat (left_behind (env w) FallbackWrite))
                     ((d ++ lit "Z") ++ lit " | " ++ rest)
    end.
Proof.
  intros src_ip xff method path headers body w d Hnow Hd w'. subst w'.
  rewrite save_event_run, Hnow, (replace_utc_suffix d Hd).
  destruct (fault (env w) DbInsert); cbn [snd events logfile].
  - destruct (fault (env w) FallbackWrite).
    + split; [done|]. unfold log_line. eexists. reflexivity.
    + unfold log_line. eexists. reflexivity.
  - eexists. split; reflexivity.
Qed.

Lemma hex_digit_printable n : n < 16 → printable (hex_digit n).
Proof.
  intros Hn. unfold hex_digit, printable.
  destruct (N.ltb_spec n 10); lia.
Qed.

Lemma u_escape_printable n : Forall printable (u_escape n).
Proof.
  unfold u_escape.
  repeat constructor; try (unfold printable; lia);
    apply hex_digit_printable, N.mod_lt; lia.
Qed.

Lemma escape_char_printable c : Forall printable (escape_char c).
Proof.
  unfold escape_char.
  repeat match goal with
  | |- context [if ?x =? ?y then _ else _] =>
      destruct (N.eqb_spec x y);
        [repeat constructor; unfold printable; lia|]
  end.
  destruct (N.leb_spec 32 c), (N.leb_spec c 126); cbn [andb].
  1: by repeat constructor.
  all: destruct (c <? 65536);
    [apply u_escape_printable | apply Forall_app; split; apply u_escape_printable].
Qed.

Lemma json_string_printable s : Forall printable (json_string s).
Proof.
  unfold json_string. apply Forall_app. split; [by repeat constructor|].
  apply Forall_app. split; [|by repeat constructor].
  induction s as [|c s IH]; simpl; [constructor|].
  apply Forall_app. split; [apply escape_char_printable | exact IH].
Qed.

Lemma join_Forall (P : N → Prop) sep parts :
  Forall P sep → Forall (Forall P) parts → Forall P (join sep parts).
Proof.
  intros Hsep. induction 1 as [|p rest Hp Hrest IH]; simpl; [constructor|].
  destruct rest as [|q rest]; [done|].
  apply Forall_app. split; [done|]. apply Forall_app. by split.
Qed.

(** X14. The JSON text of the headers is printable ASCII whatever the
    header values are: quotes, backslashes, control characters and
    characters outside ASCII are escaped. So no header value can put a
    line break, or a character that is not ASCII, into the headers
    column or into the headers field of the log line. *)
Theorem headers_json_is_printable_ascii :
  ∀ headers_dict : list (pystr * pystr),
    Forall printable (json_dumps headers_dict)
    ∧ (10 ∉ json_dumps headers_dict)
    ∧ ∀ headers : Headers,
        Forall printable (json_dumps (header_summary headers)).
Proof.
  assert (H : ∀ d : list (pystr * pystr), Forall printable (json_dumps d)).
  { intros d. unfold json_dumps.
    apply Forall_app. split; [by repeat constructor|].
    apply Forall_app. split; [|by repeat constructor].
    apply join_Forall; [by repeat constructor|].
    apply Forall_fmap, Forall_forall. intros [k v] _. cbn [fst snd compose].
    apply Forall_app. split; [apply json_string_printable|].
    apply Forall_app. split; [by repeat constructor|].
    apply json_string_printable. }
  intros d. split; [apply H|]. split; [|intros; apply H].
  intros I. specialize (H d). rewrite Forall_forall in H.
  destruct (H _ I) as [? _]. lia.
Qed.

Lemma decode_from_ascii (bs : list Byte.byte) :
  Forall (λ b, Byte.to_N b < 128) bs →
  decode_from None bs = Byte.to_N <$> bs.
Proof.
  induction 1 as [|b bs Hb _ IH]; [done|].
  simpl. unfold start.
  destruct (N.leb_spec (Byte.to_N b) 127); [|lia].
  simpl. by rewrite IH.
Qed.

(** X15. A body of at most 2000 bytes, all of them ASCII, is recorded as
    it is, one character for each byte. *)
Theorem ascii_body_is_recorded_verbatim :
  ∀ bs : list Byte.byte,
    Forall (λ b, Byte.to_N b < 128) bs →
    (length bs ≤ 2000)%nat →
    body_excerpt (VBytes bs) = Byte.to_N <$> bs.
Proof.
  intros bs Hascii Hlen. unfold body_excerpt, slice_to, decode_utf8_replace.
  rewrite decode_from_ascii by done.
  apply take_ge. by rewrite length_fmap.
Qed.

(** ** The further facts at concrete requests *)

Lemma anonymous_request_is_recorded :
  let w := sample_world [] in
  events (log_request sample_anonymous w).2 =
    [ {| row_ts := lit "2024-05-01T12:00:00.250000Z";
         row_src_ip := lit "unknown";
         row_xff := lit "198.51.100.9";
         row_method := lit "GET";
         row_path := lit "/";
         row_headers :=
           html (lit "{'User-Agent': '', 'X-Forwarded-For': '198.51.100.9', 'Content-Type': '', 'Accept': ''}");
         row_body := [] |} ]
  ∧ logfile (log_request sample_anonymous w).2 = [].
Proof.
  intros w.
  destruct (log_request_records_one_row sample_anonymous w None
              (environ_headers
                 {[ lit "HTTP_X_FORWARDED_FOR" := lit "198.51.100.9";
                    lit "HTTP_COOKIE" := lit "sid=1" ]})
              (lit "198.51.100.9") (lit "GET") (lit "/") []
              eq_refl eq_refl eq_refl eq_refl eq_refl eq_refl eq_refl)
    as (H1 & H2 & _).
  split; [exact H1 | exact H2].
Defined.

Lemma unreadable_request_is_dropped :
  let w := sample_world [] in
  get_data sample_unreadable = Raise (Exception (lit "413 Request Entity Too Large"))
  ∧ events (log_request sample_unreadable w).2 = []
  ∧ logfile (log_request sample_unreadable w).2 = [].
Proof.
  intros w. split; [reflexivity|].
  destruct (log_request_drops_unreadable_request sample_unreadable w
              (Exception (lit "413 Request Entity Too Large"))
              (or_intror (or_intror (or_intror (or_intror (or_intror eq_refl))))))
    as (H1 & H2 & _).
  split; [exact H1 | exact H2].
Defined.

Lemma login_view_changes_nothing :
  (view sample_decomposition AdminLogin sample_login (sample_world [])).2
  = sample_world [].
Proof.
  apply (proj2 (views_leave_the_events_table_alone sample_decomposition
                  AdminLogin sample_login (sample_world []))).
  discriminate.
Defined.

Lemma nameless_file_is_skipped :
  let request := sample_file (Some []) [Byte.x68] in
  upload sample_decomposition request (sample_world [])
  = (Ok {| body := lit "OK"; status := 200 |}, sample_world []).
Proof.
  intros request.
  exact (upload_skips_file_without_name sample_decomposition request
           (sample_world []) {| filename := Some []; stream := [Byte.x68] |}
           eq_refl (or_intror eq_refl)).
Defined.

Lemma notes_txt_is_stored_with_note :
  let w' := (upload sample_decomposition (sample_upload (lit "notes.txt"))
               (sample_world [])).2 in
  quarantine w' !! lit "quarantine/1714564800_notes.txt"
    = Some [Byte.x68; Byte.x69]
  ∧ logfile w' =
      lit "2024-05-01T12:00:00.250000+00:00 | uploaded_file_saved: quarantine/1714564800_notes.txt"
        ++ [10].
Proof.
  intros w'.
  destruct (upload_success_stores_file_and_note sample_decomposition
              (sample_upload (lit "notes.txt")) (sample_world [])
              {| filename := Some (lit "notes.txt");
                 stream := [Byte.x68; Byte.x69] |}
              eq_refl eq_refl eq_refl eq_refl eq_refl) as (_ & H2 & H3 & _).
  split; [exact H2 | exact H3].
Defined.

Lemma notes_txt_is_cut_when_save_fails :
  let r := upload sample_decomposition (sample_upload (lit "notes.txt"))
             (sample_world_cut [FileSave] 1) in
  r.1 = Ok {| body := lit "Failed"; status := 500 |}
  ∧ quarantine r.2 = {[ lit "quarantine/1714564800_notes.txt" := [Byte.x68] ]}
  ∧ app_log r.2 =
      [lit "Failed to save upload: [Errno 28] No space left on device"].
Proof.
  intros r.
  destruct (upload_save_failure_leaves_at_most_a_part sample_decomposition
              (sample_upload (lit "notes.txt")) (sample_world_cut [FileSave] 1)
              {| filename := Some (lit "notes.txt");
                 stream := [Byte.x68; Byte.x69] |}
              io_error eq_refl eq_refl eq_refl eq_refl) as (H1 & H2 & _ & H4).
  split; [exact H1 | split; [exact H2 | exact H4]].
Defined.

Lemma second_upload_replaces_first :
  let first := sample_file (Some (lit "a b.txt")) [Byte.x31] in
  let second := sample_file (Some (lit "a_b.txt")) [Byte.x32] in
  let w := sample_world [] in
  quarantine (upload sample_decomposition second
                (upload sample_decomposition first w).2).2
  = {[ lit "quarantine/1714564800_a_b.txt" := [Byte.x32] ]}.
Proof.
  intros first second w.
  exact (upload_same_second_same_name_overwrites sample_decomposition
           first second w
           {| filename := Some (lit "a b.txt"); stream := [Byte.x31] |}
           {| filename := Some (lit "a_b.txt"); stream := [Byte.x32] |}
           eq_refl eq_refl eq_refl eq_refl eq_refl eq_refl eq_refl).
Defined.

Lemma same_path_same_sanitized_name :
  1714564800%Z = 1714564800%Z
  ∧ secure_filename sample_decomposition (lit "a b.txt")
    = secure_filename sample_decomposition (lit "a_b.txt").
Proof.
  exact (upload_path_tells_second_and_name sample_decomposition
           1714564800 1714564800 (lit "a b.txt") (lit "a_b.txt") eq_refl).
Defined.

Lemma cookie_is_not_kept_and_lower_case_is :
  environ_key (lit "user-agent") = lit "HTTP_USER_AGENT"
  ∧ header_summary
      (environ_headers (<[ environ_key (lit "Cookie") := lit "sid=1" ]>
                          {[ environ_key (lit "user-agent") := lit "curl" ]}))
    = header_summary
        (environ_headers {[ environ_key (lit "user-agent") := lit "curl" ]})
  ∧ header_summary
      (environ_headers {[ environ_key (lit "user-agent") := lit "curl" ]})
    = [(lit "User-Agent", lit "curl"); (lit "X-Forwarded-For", []);
       (lit "Content-Type", []); (lit "Accept", [])].
Proof.
  split; [reflexivity|].
  destruct (header_summary_keeps_four_environ_headers
              {[ environ_key (lit "user-agent") := lit "curl" ]}) as [H1 H2].
  split; [|exact H1].
  apply (H2 (lit "Cookie") (lit "sid=1")).
  change KEPT_ENVIRON
    with [lit "HTTP_USER_AGENT"; lit "HTTP_X_FORWARDED_FOR";
          lit "CONTENT_TYPE"; lit "HTTP_ACCEPT"].
  repeat (apply not_elem_of_cons; split; [discriminate|]).
  apply not_elem_of_nil.
Defined.

Lemma sample_timestamp_ends_in_Z :
  ∃ row,
    events (save_event (lit "203.0.113.7") [] (lit "GET") (lit "/")
              (mapping ∅) VNone (sample_world [])).2 = [row]
    ∧ row_ts row = lit "2024-05-01T12:00:00.250000Z".
Proof.
  apply (save_event_timestamp_ends_in_Z (lit "203.0.113.7") [] (lit "GET")
           (lit "/") (mapping ∅) VNone (sample_world [])
           (lit "2024-05-01T12:00:00.250000") eq_refl).
  repeat (apply not_elem_of_cons; split; [discriminate|]).
  apply not_elem_of_nil.
Defined.

Lemma hi_is_recorded_verbatim :
  body_excerpt (VBytes [Byte.x68; Byte.x69]) = lit "hi".
Proof.
  apply (ascii_body_is_recorded_verbatim [Byte.x68; Byte.x69]).
  - repeat constructor.
  - simpl. lia.
Defined.

(** ** The log line is written raw *)

(** X16. Unlike the headers, the body excerpt goes into the log line as
    it is: a line break in it is a line break in the log file, before
    the one that ends the record, so that one event can span (or
    imitate) several lines of the log. *)
Theorem log_line_keeps_line_breaks_of_body :
  ∀ ts src_ip xff method path headers_dict (body_text : pystr),
    10 ∈ body_text →
    ∃ before after,
      log_line ts src_ip xff method path headers_dict body_text
        = before ++ 10 :: after
      ∧ 10 ∈ after.
Proof.
  intros ts src_ip xff method path headers_dict body_text Hnl.
  apply list_elem_of_split in Hnl as (l1 & l2 & ->).
  exists (ts ++ lit " | " ++ src_ip ++ lit " | " ++ xff ++ lit " | "
            ++ method ++ lit " " ++ path
            ++ lit " | headers:" ++ json_dumps headers_dict
            ++ lit " | body:" ++ l1),
         (l2 ++ [10]).
  split.
  - unfold log_line. by rewrite <- !(assoc_L (++)).
  - apply elem_of_app. right. apply list_elem_of_here.
Qed.

Lemma two_line_body_spans_two_lines :
  ∃ before after,
    log_line (lit "2024-05-01T12:00:00.250000Z") (lit "203.0.113.7") []
      (lit "POST") (lit "/") [] (lit "a" ++ [10] ++ lit "b")
      = before ++ 10 :: after
    ∧ 10 ∈ after.
Proof.
  apply (log_line_keeps_line_breaks_of_body
           (lit "2024-05-01T12:00:00.250000Z") (lit "203.0.113.7") []
           (lit "POST") (lit "/") [] (lit "a" ++ [10] ++ lit "b")).
  apply elem_of_cons. right. apply list_elem_of_here.
Defined.
